(** * Trudy listeners: a shallow embedding of [listener/listener.go]

    The Go package [listener] wraps three transports behind the
    [TrudyListener] interface.  Its methods are thin sequences of calls into
    the Go standard library ([net], [os], [crypto/tls]), which in turn issue
    socket system calls.  The development therefore has three layers:

    - a small kernel: a table of live sockets, the process descriptor table,
      and the system calls [socket], [bind], [listen], [accept], [dup],
      [close];
    - the standard-library calls the package uses, written over the kernel;
    - the package itself, one module per struct, method by method.

    Go code that can panic lives in the monad [Go]: a state transformer over
    the kernel state whose outcome is either a returned value or a panic. *)

From stdpp Require Import gmap strings list.
From Stdlib Require Import ZArith.

Local Open Scope string_scope.
Local Open Scope Z_scope.

Set Warnings "-register-all".

(** ** Errors and panics *)

Inductive Errno : Set :=
| EINVAL | EBADF | EMFILE | EADDRINUSE | EACCES | ECONNABORTED | ENOTSOCK.

(** The dynamic values an [error] interface holds in this program. *)
Inductive error : Set :=
| ErrnoError (e : Errno)                         (* a bare syscall.Errno *)
| SyscallError (call : string) (e : Errno)       (* os.NewSyscallError   *)
| ErrorString (msg : string)                     (* errors.New           *)
| OpError (Op Net : string) (Err : error)        (* *net.OpError         *)
| AddrError (msg addr : string).                 (* *net.AddrError       *)

Inductive panic_value : Set :=
| PanicError (e : error)          (* panic(err) *)
| NilDereference.                 (* runtime error: nil pointer dereference *)

#[global] Instance Errno_eq_dec : EqDecision Errno.
Proof. solve_decision. Defined.

(** ** The kernel *)

Inductive proto : Set := TCP | UDP.
Inductive sock_state : Set := Unbound | Bound | Listening | Connected.

#[global] Instance proto_eq_dec : EqDecision proto.
Proof. solve_decision. Defined.
#[global] Instance sock_state_eq_dec : EqDecision sock_state.
Proof. solve_decision. Defined.

(** [net.TCPAddr] and [net.UDPAddr] have the same shape; the zero value
    (no IP, port 0) asks the kernel for the wildcard address and a port of
    its choosing. *)
Record SockAddr : Set := { IP : list nat; Port : Z }.

Definition zero_addr : SockAddr := {| IP := []; Port := 0 |}.

Record Socket : Set :=
  { so_proto : proto; so_state : sock_state; so_local : SockAddr }.

Inductive event : Set :=
| EvSocket (p : proto) (fd : Z)
| EvBind (fd : Z) (requested : SockAddr)
| EvListen (fd : Z)
| EvAccept (fd newfd : Z)
| EvDup (fd newfd : Z)
| EvClose (fd : Z)
| EvFail (call : string) (e : Errno)
| EvHandshake (fd : Z)
| EvRead (fd : Z)
| EvWrite (fd : Z).

(** The state a call runs in.  [script] holds the kernel's decisions for the
    system calls to come ([Some e]: the call fails with [e]; [None], or an
    exhausted script: the call runs by the rules below).  [resolver] is the
    answer of name resolution for a network and an address string.  [trace]
    lists the system calls made so far, latest first. *)
Record World : Type :=
  { sockets : gmap nat Socket;
    fdtable : gmap Z nat;
    script : list (option Errno);
    resolver : string → string → option SockAddr;
    trace : list event }.

Definition set_sockets (s : gmap nat Socket) (w : World) : World :=
  {| sockets := s; fdtable := fdtable w; script := script w;
     resolver := resolver w; trace := trace w |}.
Definition set_fdtable (t : gmap Z nat) (w : World) : World :=
  {| sockets := sockets w; fdtable := t; script := script w;
     resolver := resolver w; trace := trace w |}.
Definition set_script (s : list (option Errno)) (w : World) : World :=
  {| sockets := sockets w; fdtable := fdtable w; script := s;
     resolver := resolver w; trace := trace w |}.
Definition log (e : event) (w : World) : World :=
  {| sockets := sockets w; fdtable := fdtable w; script := script w;
     resolver := resolver w; trace := e :: trace w |}.

(** The first key of the enumeration [f 0, f 1, ...] that is free in [t]. *)
Definition first_free `{Countable K} {V} (f : nat → K) (t : gmap K V) : K :=
  match list_find (λ n, t !! f n = None) (seq 0 (S (size t))) with
  | Some (_, n) => f n
  | None => f (S (size t))
  end.

Definition alloc_fd (t : gmap Z nat) : Z := first_free Z.of_nat t.
Definition alloc_sock (s : gmap nat Socket) : nat := first_free id s.

(** Descriptors are granted below the limit on open files only. *)
Definition RLIMIT_NOFILE : Z := 1048576.

Definition port_in_use (p : proto) (port : Z) (s : gmap nat Socket) : bool :=
  existsb (λ kv, bool_decide (so_proto kv.2 = p) &&
                 negb (bool_decide (so_state kv.2 = Unbound)) &&
                 (Port (so_local kv.2) =? port))
          (map_to_list s).

(** The port the kernel picks for a bind to port 0: the first one of the
    local range that no socket of the protocol holds. *)
Definition ephemeral_port (p : proto) (s : gmap nat Socket) : Z :=
  match list_find (λ n, port_in_use p (32768 + Z.of_nat n) s = false)
                  (seq 0 (S (size s))) with
  | Some (_, n) => 32768 + Z.of_nat n
  | None => 32768 + Z.of_nat (S (size s))
  end.

Inductive sysret (A : Type) : Type := Ok (a : A) | Fail (e : Errno).
Arguments Ok {A} a.
Arguments Fail {A} e.

(** A descriptor names a socket if it is in range and open. *)
Definition fd_lookup (w : World) (fd : Z) : option nat :=
  if fd <? 0 then None else fdtable w !! fd.

(** A system call first consults the script. *)
Definition syscall {A} (name : string) (body : World → sysret A * World)
    (w : World) : sysret A * World :=
  match script w with
  | Some e :: rest => (Fail e, log (EvFail name e) (set_script rest w))
  | None :: rest => body (set_script rest w)
  | [] => body w
  end.

Definition sys_socket (p : proto) : World → sysret Z * World :=
  syscall "socket" (λ w,
    let fd := alloc_fd (fdtable w) in
    if fd <? RLIMIT_NOFILE then
      let s := alloc_sock (sockets w) in
      (Ok fd,
       log (EvSocket p fd)
         (set_fdtable (<[fd := s]> (fdtable w))
            (set_sockets
               (<[s := {| so_proto := p; so_state := Unbound;
                          so_local := zero_addr |}]> (sockets w)) w)))
    else (Fail EMFILE, log (EvFail "socket" EMFILE) w)).

Definition sys_bind (fd : Z) (a : SockAddr) : World → sysret unit * World :=
  syscall "bind" (λ w,
    match fd_lookup w fd with
    | None => (Fail EBADF, log (EvFail "bind" EBADF) w)
    | Some s =>
        match sockets w !! s with
        | None => (Fail EBADF, log (EvFail "bind" EBADF) w)
        | Some sk =>
            if negb (bool_decide (so_state sk = Unbound)) then
              (Fail EINVAL, log (EvFail "bind" EINVAL) w)
            else if negb (Port a =? 0) && port_in_use (so_proto sk) (Port a) (sockets w)
            then (Fail EADDRINUSE, log (EvFail "bind" EADDRINUSE) w)
            else
              let port := if Port a =? 0
                          then ephemeral_port (so_proto sk) (sockets w)
                          else Port a in
              (Ok (),
               log (EvBind fd a)
                 (set_sockets
                    (<[s := {| so_proto := so_proto sk; so_state := Bound;
                               so_local := {| IP := IP a; Port := port |} |}]>
                       (sockets w)) w))
        end
    end).

Definition sys_listen (fd : Z) : World → sysret unit * World :=
  syscall "listen" (λ w,
    match fd_lookup w fd with
    | None => (Fail EBADF, log (EvFail "listen" EBADF) w)
    | Some s =>
        match sockets w !! s with
        | None => (Fail EBADF, log (EvFail "listen" EBADF) w)
        | Some sk =>
            if bool_decide (so_proto sk = TCP) && bool_decide (so_state sk = Bound)
            then
              (Ok (),
               log (EvListen fd)
                 (set_sockets
                    (<[s := {| so_proto := TCP; so_state := Listening;
                               so_local := so_local sk |}]> (sockets w)) w))
            else (Fail EINVAL, log (EvFail "listen" EINVAL) w)
        end
    end).

(** [accept] is modelled at its completion: the call blocks until a peer has
    connected, then hands out a new connected socket under a new descriptor. *)
Definition sys_accept (fd : Z) : World → sysret Z * World :=
  syscall "accept" (λ w,
    match fd_lookup w fd with
    | None => (Fail EBADF, log (EvFail "accept" EBADF) w)
    | Some s =>
        match sockets w !! s with
        | None => (Fail EBADF, log (EvFail "accept" EBADF) w)
        | Some sk =>
            if bool_decide (so_state sk = Listening) then
              let nfd := alloc_fd (fdtable w) in
              if nfd <? RLIMIT_NOFILE then
                let ns := alloc_sock (sockets w) in
                (Ok nfd,
                 log (EvAccept fd nfd)
                   (set_fdtable (<[nfd := ns]> (fdtable w))
                      (set_sockets
                         (<[ns := {| so_proto := TCP; so_state := Connected;
                                     so_local := so_local sk |}]>
                            (sockets w)) w)))
              else (Fail EMFILE, log (EvFail "accept" EMFILE) w)
            else (Fail EINVAL, log (EvFail "accept" EINVAL) w)
        end
    end).

(** [dup] gives the same socket a second descriptor. *)
Definition sys_dup (fd : Z) : World → sysret Z * World :=
  syscall "dup" (λ w,
    match fd_lookup w fd with
    | None => (Fail EBADF, log (EvFail "dup" EBADF) w)
    | Some s =>
        let nfd := alloc_fd (fdtable w) in
        if nfd <? RLIMIT_NOFILE then
          (Ok nfd, log (EvDup fd nfd) (set_fdtable (<[nfd := s]> (fdtable w)) w))
        else (Fail EMFILE, log (EvFail "dup" EMFILE) w)
    end).

(** [close] drops the descriptor; the socket dies with its last descriptor. *)
Definition sys_close (fd : Z) : World → sysret unit * World :=
  syscall "close" (λ w,
    match fd_lookup w fd with
    | None => (Fail EBADF, log (EvFail "close" EBADF) w)
    | Some s =>
        let t := delete fd (fdtable w) in
        let socks :=
          if existsb (λ kv, bool_decide (kv.2 = s)) (map_to_list t)
          then sockets w else delete s (sockets w) in
        (Ok (), log (EvClose fd) (set_fdtable t (set_sockets socks w)))
    end).

(** ** Go computations *)

Inductive outcome (A : Type) : Type :=
| Returned (a : A)
| Panicked (p : panic_value).
Arguments Returned {A} a.
Arguments Panicked {A} p.

Definition Go (A : Type) : Type := World → outcome A * World.

#[global] Instance Go_ret : MRet Go := λ A a w, (Returned a, w).
#[global] Instance Go_bind : MBind Go := λ A B f c w,
  match c w with
  | (Returned a, w') => f a w'
  | (Panicked p, w') => (Panicked p, w')
  end.

#[global] Instance Go_fmap : FMap Go := λ A B f c w,
  match c w with
  | (Returned a, w') => (Returned (f a), w')
  | (Panicked p, w') => (Panicked p, w')
  end.

Definition panic {A} (p : panic_value) : Go A := λ w, (Panicked p, w).

Definition kernel {A} (k : World → sysret A * World) : Go (sysret A) :=
  λ w, (Returned (k w).1, (k w).2).

Definition resolve (network address : string) : Go (option SockAddr) :=
  λ w, (Returned (resolver w network address), w).

Definition socket_proto (fd : Z) : Go (option proto) :=
  λ w, (Returned (s ← fd_lookup w fd; sk ← sockets w !! s; Some (so_proto sk)), w).

(** ** The standard library, as far as the package calls it

    These definitions follow the documentation and the source of Go's [net],
    [os] and [crypto/tls] packages on a POSIX system.

    A Go pointer is an [option]: [None] is [nil].  An [error] is an
    [option error].  A [net.Conn] is an [option Conn]; the dynamic types it
    holds in this program are [*net.TCPConn], [*net.UDPConn] and
    [*tls.Conn]. *)

Record tls_Certificate : Set := { Certificate : list string; PrivateKey : string }.
Record tls_Config : Set := { Certificates : list tls_Certificate }.

Record net_TCPListener : Set := { l_sysfd : Z }.
Record net_TCPConn : Set := { c_sysfd : Z }.
Record net_UDPConn : Set := { u_sysfd : Z }.
Record os_File : Set := { f_fd : Z }.

Inductive Conn : Set :=
| OfTCP (c : net_TCPConn)
| OfUDP (c : net_UDPConn)
| OfTLS (conn : option Conn) (config : option tls_Config) (handshakeComplete : bool).

(** [uintptr] and [int] are 64 bits wide. *)
Definition uintptr (x : Z) : Z := x mod 2 ^ 64.
Definition int (u : Z) : Z := if u <? 2 ^ 63 then u else u - 2 ^ 64.

(** [func (f *File) Fd() uintptr]: all ones for a nil file. *)
Definition os_File_Fd (f : option os_File) : Z :=
  match f with
  | None => 2 ^ 64 - 1
  | Some f => uintptr (f_fd f)
  end.

(** [net.ResolveTCPAddr], [net.ResolveUDPAddr]: the address, or nil and an
    error. *)
Definition net_ResolveTCPAddr (network address : string)
  : Go (option SockAddr * option error) :=
  a ← resolve network address;
  match a with
  | Some a => mret (Some a, None)
  | None => mret (None, Some (AddrError "cannot resolve" address))
  end.

Definition net_ResolveUDPAddr (network address : string)
  : Go (option SockAddr * option error) :=
  a ← resolve network address;
  match a with
  | Some a => mret (Some a, None)
  | None => mret (None, Some (AddrError "cannot resolve" address))
  end.

(** [net.ListenTCP]: a nil address means the zero address.  A socket is
    made, bound and put to listen; it is closed again if a later step fails. *)
Definition net_ListenTCP (network : string) (laddr : option SockAddr)
  : Go (option net_TCPListener * option error) :=
  let laddr := default zero_addr laddr in
  r ← kernel (sys_socket TCP);
  match r with
  | Fail e => mret (None, Some (OpError "listen" network (SyscallError "socket" e)))
  | Ok fd =>
      r ← kernel (sys_bind fd laddr);
      match r with
      | Fail e =>
          _ ← kernel (sys_close fd);
          mret (None, Some (OpError "listen" network (SyscallError "bind" e)))
      | Ok _ =>
          r ← kernel (sys_listen fd);
          match r with
          | Fail e =>
              _ ← kernel (sys_close fd);
              mret (None, Some (OpError "listen" network (SyscallError "listen" e)))
          | Ok _ => mret (Some {| l_sysfd := fd |}, None)
          end
      end
  end.

(** [net.ListenUDP]: as above, without the listen step. *)
Definition net_ListenUDP (network : string) (laddr : option SockAddr)
  : Go (option net_UDPConn * option error) :=
  let laddr := default zero_addr laddr in
  r ← kernel (sys_socket UDP);
  match r with
  | Fail e => mret (None, Some (OpError "listen" network (SyscallError "socket" e)))
  | Ok fd =>
      r ← kernel (sys_bind fd laddr);
      match r with
      | Fail e =>
          _ ← kernel (sys_close fd);
          mret (None, Some (OpError "listen" network (SyscallError "bind" e)))
      | Ok _ => mret (Some {| u_sysfd := fd |}, None)
      end
  end.

(** [TCPListener.AcceptTCP]: [EINVAL] on a nil listener. *)
Definition net_AcceptTCP (l : option net_TCPListener)
  : Go (option net_TCPConn * option error) :=
  match l with
  | None => mret (None, Some (ErrnoError EINVAL))
  | Some l =>
      r ← kernel (sys_accept (l_sysfd l));
      match r with
      | Fail e => mret (None, Some (OpError "accept" "tcp" (SyscallError "accept" e)))
      | Ok fd => mret (Some {| c_sysfd := fd |}, None)
      end
  end.

(** [TCPListener.Close]. *)
Definition net_TCPListener_Close (l : option net_TCPListener) : Go (option error) :=
  match l with
  | None => mret (Some (ErrnoError EINVAL))
  | Some l =>
      r ← kernel (sys_close (l_sysfd l));
      match r with
      | Fail e => mret (Some (OpError "close" "tcp" (SyscallError "close" e)))
      | Ok _ => mret None
      end
  end.

(** [conn.File]: an [os.File] over a duplicate of the descriptor. *)
Definition dup_file (network : string) (sysfd : Z) : Go (option os_File * option error) :=
  r ← kernel (sys_dup sysfd);
  match r with
  | Fail e => mret (None, Some (OpError "file" network (SyscallError "dup" e)))
  | Ok fd => mret (Some {| f_fd := fd |}, None)
  end.

Definition net_TCPConn_File (c : option net_TCPConn) : Go (option os_File * option error) :=
  match c with
  | None => panic NilDereference
  | Some c => dup_file "tcp" (c_sysfd c)
  end.

Definition net_UDPConn_File (c : option net_UDPConn) : Go (option os_File * option error) :=
  match c with
  | None => panic NilDereference
  | Some c => dup_file "udp" (u_sysfd c)
  end.

(** [net.FileConn]: a connection over a second duplicate, of the dynamic
    type that fits the socket.  On failure the error is wrapped together
    with [f.Name()], which dereferences [f]. *)
Definition net_FileConn (f : option os_File) : Go (option Conn * option error) :=
  r ← kernel (sys_dup (int (os_File_Fd f)));
  r ← match r with
      | Fail e => mret (None, Some (SyscallError "dup" e))
      | Ok fd =>
          p ← socket_proto fd;
          match p with
          | Some TCP => mret (Some (OfTCP {| c_sysfd := fd |}), None)
          | Some UDP => mret (Some (OfUDP {| u_sysfd := fd |}), None)
          | None =>
              _ ← kernel (sys_close fd);
              mret (None, Some (SyscallError "getsockopt" ENOTSOCK))
          end
      end;
  match r with
  | (c, Some e) =>
      match f with
      | None => panic NilDereference
      | Some _ => mret (None, Some (OpError "file" "file+net" e))
      end
  | (c, None) => mret (c, None)
  end.

(** [tls.Server]: wraps the connection; no input or output happens. *)
Definition tls_Server (conn : option Conn) (config : option tls_Config) : Conn :=
  OfTLS conn config false.

(** [errors.New]. *)
Definition errors_New (msg : string) : error := ErrorString msg.

(** Reading from or writing to a stream.  A [*tls.Conn] whose handshake is
    not complete runs it first ([crypto/tls]: the first Read or Write calls
    Handshake). *)
Definition raw_io (rd : bool) (fd : Z) : Go (option error) :=
  r ← kernel (syscall (if rd then "read" else "write") (λ w,
         match fd_lookup w fd with
         | None => (Fail EBADF, log (EvFail (if rd then "read" else "write") EBADF) w)
         | Some _ => (Ok (), log (if rd then EvRead fd else EvWrite fd) w)
         end));
  match r with
  | Fail e => mret (Some (OpError (if rd then "read" else "write") "tcp"
                            (SyscallError (if rd then "read" else "write") e)))
  | Ok _ => mret None
  end.

Fixpoint Conn_fd (c : Conn) : option Z :=
  match c with
  | OfTCP c => Some (c_sysfd c)
  | OfUDP c => Some (u_sysfd c)
  | OfTLS (Some c) _ _ => Conn_fd c
  | OfTLS None _ _ => None
  end.

Definition tls_Handshake (fd : Z) : Go (option error) :=
  r ← kernel (syscall "handshake" (λ w, (Ok (), log (EvHandshake fd) w)));
  match r with
  | Fail e => mret (Some (OpError "handshake" "tls" (ErrnoError e)))
  | Ok _ => mret None
  end.

Fixpoint Conn_io (rd : bool) (c : Conn) : Go (Conn * option error) :=
  match c with
  | OfTCP t => err ← raw_io rd (c_sysfd t); mret (c, err)
  | OfUDP u => err ← raw_io rd (u_sysfd u); mret (c, err)
  | OfTLS None _ _ => panic NilDereference
  | OfTLS (Some under) cfg true =>
      '(under', err) ← Conn_io rd under; mret (OfTLS (Some under') cfg true, err)
  | OfTLS (Some under) cfg false =>
      match Conn_fd under with
      | None => panic NilDereference
      | Some fd =>
          err ← tls_Handshake fd;
          match err with
          | Some e => mret (c, Some e)
          | None =>
              '(under', err) ← Conn_io rd under;
              mret (OfTLS (Some under') cfg true, err)
          end
      end
  end.

Definition Conn_Read : Conn → Go (Conn * option error) := Conn_io true.
Definition Conn_Write : Conn → Go (Conn * option error) := Conn_io false.

(** ** Package [listener] *)

(** The [TrudyListener] interface.  [Listen] has no result in Go; a method on
    a pointer receiver returns the struct as it leaves it. *)
Class TrudyListener (L : Type) : Type :=
  { Listen : L → string → option tls_Config → Go L;
    Accept : L → Go (Z * option Conn * option error);
    Close : L → Go (option error) }.

Module TCPListener.
Record t : Set := { Listener : option net_TCPListener }.

Definition Listen (tl : t) (port : string) (_ : option tls_Config) : Go t :=
  '(tcpAddr, _) ← net_ResolveTCPAddr "tcp" port;
  '(tcpListener, err) ← net_ListenTCP "tcp" tcpAddr;
  match err with
  | Some e => panic (PanicError e)
  | None => mret {| Listener := tcpListener |}
  end.

Definition Accept (tl : t) : Go (Z * option Conn * option error) :=
  let fd := 0 in
  let conn := None in
  '(cpointer, err) ← net_AcceptTCP (Listener tl);
  match err with
  | Some _ => mret (fd, conn, err)
  | None =>
      '(file, err) ← net_TCPConn_File cpointer;
      let fd := int (os_File_Fd file) in
      '(conn, err) ← net_FileConn file;
      mret (fd, conn, err)
  end.

Definition Close (tl : t) : Go (option error) :=
  net_TCPListener_Close (Listener tl).
End TCPListener.

Module TLSListener.
Record t : Set :=
  { Listener : option net_TCPListener; Config : option tls_Config }.

Definition Accept (tl : t) : Go (Z * option Conn * option error) :=
  let fd := 0 in
  let conn := None in
  '(cpointer, err) ← net_AcceptTCP (Listener tl);
  match err with
  | Some _ => mret (fd, conn, err)
  | None =>
      '(file, err) ← net_TCPConn_File cpointer;
      match err with
      | Some _ => mret (fd, conn, err)
      | None =>
          let fd := int (os_File_Fd file) in
          '(fconn, err) ← net_FileConn file;
          match err with
          | Some _ => mret (fd, conn, err)
          | None =>
              let conn := Some (tls_Server fconn (Config tl)) in
              mret (fd, conn, err)
          end
      end
  end.

Definition Listen (tl : t) (port : string) (config : option tls_Config) : Go t :=
  '(tcpAddr, _) ← net_ResolveTCPAddr "tcp" port;
  match config with
  | None => panic NilDereference
  | Some cfg =>
      if (Z.of_nat (length (Certificates cfg)) =? 0) then
        panic (PanicError (errors_New "tls.Listen: no certificates in configuration"))
      else
        '(tcpListener, err) ← net_ListenTCP "tcp" tcpAddr;
        match err with
        | Some e => panic (PanicError e)
        | None => mret {| Listener := tcpListener; Config := config |}
        end
  end.

Definition Close (tl : t) : Go (option error) :=
  net_TCPListener_Close (Listener tl).
End TLSListener.

Module UDPListener.
Record t : Set := { Laddr : option SockAddr }.

Definition Listen (ul : t) (port : string) (_ : option tls_Config) : Go t :=
  '(laddr, _) ← net_ResolveUDPAddr "udp" port;
  mret {| Laddr := laddr |}.

Definition Accept (ul : t) : Go (Z * option Conn * option error) :=
  let fd := 0 in
  let conn := None in
  '(udpConn, err) ← net_ListenUDP "udp" (Laddr ul);
  match err with
  | Some _ => mret (fd, conn, err)
  | None =>
      '(file, err) ← net_UDPConn_File udpConn;
      match err with
      | Some _ => mret (fd, conn, err)
      | None =>
          let fd := int (os_File_Fd file) in
          '(fconn, err) ← net_FileConn file;
          match err with
          | Some _ => mret (fd, conn, err)
          | None =>
              let conn := fconn in
              mret (fd, conn, err)
          end
      end
  end.

Definition Close (ul : t) : Go (option error) := mret None.
End UDPListener.

#[global] Instance TCPListener_TrudyListener : TrudyListener TCPListener.t :=
  {| Listen := TCPListener.Listen; Accept := TCPListener.Accept;
     Close := TCPListener.Close |}.
#[global] Instance TLSListener_TrudyListener : TrudyListener TLSListener.t :=
  {| Listen := TLSListener.Listen; Accept := TLSListener.Accept;
     Close := TLSListener.Close |}.
#[global] Instance UDPListener_TrudyListener : TrudyListener UDPListener.t :=
  {| Listen := UDPListener.Listen; Accept := UDPListener.Accept;
     Close := UDPListener.Close |}.

(** A value of interface type [TrudyListener]: one of the three variants. *)
Inductive listener : Set :=
| Plain (tl : TCPListener.t)
| Secured (tl : TLSListener.t)
| Datagram (ul : UDPListener.t).

Definition listener_Listen (l : listener) (port : string) (cert : option tls_Config)
  : Go listener :=
  match l with
  | Plain tl => Plain <$> Listen tl port cert
  | Secured tl => Secured <$> Listen tl port cert
  | Datagram ul => Datagram <$> Listen ul port cert
  end.

Definition listener_Accept (l : listener) : Go (Z * option Conn * option error) :=
  match l with
  | Plain tl => Accept tl
  | Secured tl => Accept tl
  | Datagram ul => Accept ul
  end.

Definition listener_Close (l : listener) : Go (option error) :=
  match l with
  | Plain tl => Close tl
  | Secured tl => Close tl
  | Datagram ul => Close ul
  end.

(** ** Concrete worlds *)

(** A resolver that knows two addresses and rejects everything else. *)
Definition demo_resolver (network address : string) : option SockAddr :=
  if String.eqb address ":6666" then Some {| IP := []; Port := 6666 |}
  else if String.eqb address ":0" then Some {| IP := []; Port := 0 |}
  else if String.eqb address "127.0.0.1:8443"
       then Some {| IP := [127; 0; 0; 1]%nat; Port := 8443 |}
  else None.

(** A process started with its three standard descriptors on one connected
    socket, as a super-server starts its services. *)
Definition boot (decisions : list (option Errno)) : World :=
  {| sockets := {[ 0%nat := {| so_proto := TCP; so_state := Connected;
                               so_local := zero_addr |} ]};
     fdtable := {[ 0 := 0%nat; 1 := 0%nat; 2 := 0%nat ]};
     script := decisions;
     resolver := demo_resolver;
     trace := [] |}.

Definition cert0 : tls_Certificate :=
  {| Certificate := ["self-signed"]; PrivateKey := "key" |}.
Definition config1 : tls_Config := {| Certificates := [cert0] |}.
Definition config0 : tls_Config := {| Certificates := [] |}.

Definition tcp0 : TCPListener.t := {| TCPListener.Listener := None |}.
Definition tls0 : TLSListener.t :=
  {| TLSListener.Listener := None; TLSListener.Config := None |}.
Definition udp0 : UDPListener.t := {| UDPListener.Laddr := None |}.

(** The listener and the world a call leaves behind. *)
Definition after {A} (c : Go A) (w : World) : World := (c w).2.
Definition value {A} (d : A) (c : Go A) (w : World) : A :=
  match (c w).1 with
  | Returned a => a
  | Panicked _ => d
  end.

(** ** Vocabulary of the specification *)

Definition bound_port (p : proto) (a : SockAddr) (s : gmap nat Socket) : Z :=
  if Port a =? 0 then ephemeral_port p s else Port a.

(** Errors of [net.FileConn], the stream construction. *)
Definition stream_error (e : error) : bool :=
  match e with
  | OpError op network _ => String.eqb op "file" && String.eqb network "file+net"
  | _ => false
  end.

Definition conn_of (p : proto) (fd : Z) : Conn :=
  match p with
  | TCP => OfTCP {| c_sysfd := fd |}
  | UDP => OfUDP {| u_sysfd := fd |}
  end.

(** The socket a successful [net.ListenTCP] or [net.ListenUDP] leaves. *)
Definition fresh_socket (p : proto) (st : sock_state) (a : SockAddr)
    (socks : gmap nat Socket) : Socket :=
  {| so_proto := p; so_state := st;
     so_local :=
       {| IP := IP a;
          Port := bound_port p a
                    (<[alloc_sock socks :=
                         {| so_proto := p; so_state := Unbound;
                            so_local := zero_addr |}]> socks) |} |}.

(** Descriptor [fd] names the live socket [s]. *)
Definition refers_to (w : World) (fd : Z) (s : nat) : Prop :=
  0 ≤ fd ∧ fdtable w !! fd = Some s ∧ is_Some (sockets w !! s).

(** The descriptor and the stream are handles of socket [s]. *)
Definition handles_of (w : World) (fd : Z) (c : Conn) (s : nat) : Prop :=
  ∃ cfd, Conn_fd c = Some cfd ∧ refers_to w fd s ∧ refers_to w cfd s.

Definition same_live_socket (w : World) (fd : Z) (c : Conn) : Prop :=
  ∃ s, handles_of w fd c s.

(** [w1] is [w] after the kernel has handed out a new socket [sk] under the
    new descriptor [cfd]. *)
Definition obtained (w w1 : World) (cfd : Z) (sk : Socket) : Prop :=
  cfd = alloc_fd (fdtable w) ∧
  fdtable w1 = <[cfd := alloc_sock (sockets w)]> (fdtable w) ∧
  sockets w1 = <[alloc_sock (sockets w) := sk]> (sockets w).

(** The ways a call of [Accept] in world [w] can end.  [wrap] is what the
    variant puts around the stream; [faulty] says whether it can panic; [Q]
    is what is known of the new socket. *)
Inductive accept_result (p : proto) (Q : Socket → Prop) (wrap : Conn → Conn)
    (faulty : bool) (w : World)
  : outcome (Z * option Conn * option error) → World → Prop :=
| accept_early e w' :
    stream_error e = false →
    accept_result p Q wrap faulty w (Returned (0, None, Some e)) w'
| accept_late fd e w' :
    stream_error e = true → fd ≠ 0 → is_Some (fdtable w' !! fd) →
    accept_result p Q wrap faulty w (Returned (fd, None, Some e)) w'
| accept_done fd nfd sk w' :
    sockets w !! alloc_sock (sockets w) = None →
    refers_to w' fd (alloc_sock (sockets w)) →
    refers_to w' nfd (alloc_sock (sockets w)) →
    sockets w' !! alloc_sock (sockets w) = Some sk →
    so_proto sk = p → Q sk →
    accept_result p Q wrap faulty w
      (Returned (fd, Some (wrap (conn_of p nfd)), None)) w'
| accept_fault w' :
    faulty = true →
    accept_result p Q wrap faulty w (Panicked NilDereference) w'.

Definition is_io (e : event) : bool :=
  match e with
  | EvHandshake _ | EvRead _ | EvWrite _ => true
  | _ => false
  end.

(** From [w] to [w'] the trace grew by entries that are no handshake, read
    or write. *)
Definition no_io (w w' : World) : Prop :=
  ∃ evs, trace w' = (evs ++ trace w)%list ∧ Forall (λ e, is_io e = false) evs.

Definition quiet {A} (c : Go A) : Prop := ∀ w, no_io w (c w).2.

Definition io_event (rd : bool) (fd : Z) : event :=
  if rd then EvRead fd else EvWrite fd.

(** In [w] socket [s] is live, of protocol [p], bound, and at address [a]
    (with the port the caller gave, if it gave one). *)
Definition bound_at (w : World) (s : nat) (p : proto) (a : SockAddr) : Prop :=
  ∃ sk, sockets w !! s = Some sk ∧
        so_proto sk = p ∧ so_state sk = Bound ∧
        IP (so_local sk) = IP a ∧
        (Port a ≠ 0 → Port (so_local sk) = Port a).

(** In [w'] the listener [l] holds a descriptor of a listening socket that
    was made since [w], at address [a]; a zero port of [a] is replaced by a
    port the kernel chose. *)
Definition listening_at (w w' : World) (l : option net_TCPListener) (a : SockAddr)
  : Prop :=
  ∃ lst sk,
    l = Some lst ∧
    sockets w !! alloc_sock (sockets w) = None ∧
    refers_to w' (l_sysfd lst) (alloc_sock (sockets w)) ∧
    sockets w' !! alloc_sock (sockets w) = Some sk ∧
    so_proto sk = TCP ∧ so_state sk = Listening ∧
    IP (so_local sk) = IP a ∧
    (Port a ≠ 0 → Port (so_local sk) = Port a) ∧
    (Port a = 0 → 32768 ≤ Port (so_local sk)).

(** A socket at the wildcard address and a port of the kernel's choosing. *)
Definition system_chosen (sk : Socket) : Prop :=
  IP (so_local sk) = [] ∧ 32768 ≤ Port (so_local sk).

(** A listener bound by the system: what is left after [Listen] on an
    address that does not resolve. *)
Definition bound_by_system (w : World) (l' : listener) (w' : World) : Prop :=
  match l' with
  | Plain t =>
      ∃ lst sk, TCPListener.Listener t = Some lst ∧
        refers_to w' (l_sysfd lst) (alloc_sock (sockets w)) ∧
        sockets w' !! alloc_sock (sockets w) = Some sk ∧
        so_state sk = Listening ∧ system_chosen sk
  | Secured t =>
      ∃ lst sk, TLSListener.Listener t = Some lst ∧
        refers_to w' (l_sysfd lst) (alloc_sock (sockets w)) ∧
        sockets w' !! alloc_sock (sockets w) = Some sk ∧
        so_state sk = Listening ∧ system_chosen sk
  | Datagram u =>
      w' = w ∧ UDPListener.Laddr u = None ∧
      ∀ w0 fd c w1,
        listener_Accept (Datagram u) w0 = (Returned (fd, Some c, None), w1) →
        ∃ sk, handles_of w1 fd c (alloc_sock (sockets w0)) ∧
              sockets w1 !! alloc_sock (sockets w0) = Some sk ∧
              so_state sk = Bound ∧ system_chosen sk
  end.

(** ** Listeners that have been started *)

(** The world and listener of a served Secured listener: [Listen] has run on
    port 6666 with one certificate. *)
Definition tls_listening (decisions : list (option Errno)) : TLSListener.t :=
  value tls0 (Listen tls0 ":6666" (Some config1)) (boot (None :: None :: None :: decisions)).
Definition tls_world (decisions : list (option Errno)) : World :=
  after (Listen tls0 ":6666" (Some config1)) (boot (None :: None :: None :: decisions)).

(** A Datagram listener after [Listen] on the given address string. *)
Definition udp_listening (port : string) : UDPListener.t :=
  value udp0 (Listen udp0 port None) (boot []).

(** A Plain listener on port 6666 and its world. *)
Definition tcp_listening (decisions : list (option Errno)) : TCPListener.t :=
  value tcp0 (Listen tcp0 ":6666" None) (boot (None :: None :: None :: decisions)).
Definition tcp_world (decisions : list (option Errno)) : World :=
  after (Listen tcp0 ":6666" None) (boot (None :: None :: None :: decisions)).

(** The world in which port 6666 is taken by a Plain listener. *)
Definition busy_world : World := after (Listen tcp0 ":6666" None) (boot []).

(** ** Claims as the specification states them *)

(** An [Accept] that returns an error returns the zero descriptor and a nil
    stream with it. *)
Definition zero_on_error : Prop :=
  ∀ (l : listener) w fd conn e w',
    listener_Accept l w = (Returned (fd, conn, Some e), w') →
    fd = 0 ∧ conn = None.

(** Two consecutive calls of [Accept] on a Datagram listener return handles
    of one and the same socket. *)
Definition same_socket_every_call : Prop :=
  ∀ (ul : UDPListener.t) w fd1 c1 w1 fd2 c2 w2,
    listener_Accept (Datagram ul) w = (Returned (fd1, Some c1, None), w1) →
    listener_Accept (Datagram ul) w1 = (Returned (fd2, Some c2, None), w2) →
    ∃ s, handles_of w2 fd1 c1 s ∧ handles_of w2 fd2 c2 s.

(** After a [Listen] that returns, a socket exists that did not exist before
    and is no longer unbound. *)
Definition Listen_makes_bound_socket : Prop :=
  ∀ (l : listener) port cfg w l' w',
    listener_Listen l port cfg w = (Returned l', w') →
    ∃ s sk, sockets w !! s = None ∧ sockets w' !! s = Some sk ∧
            so_state sk ≠ Unbound.

(** [Listen] never aborts.  Its type has no error result, so what is left
    of the sentence is that it always returns. *)
Definition Listen_never_panics : Prop :=
  ∀ (l : listener) port cfg w,
    ∃ l' w', listener_Listen l port cfg w = (Returned l', w').

(** ** Vocabulary of the further properties *)

(** [w'] keeps what [w] had: every descriptor that was open still names its
    socket, and every socket that was live is unchanged. *)
Definition keeps (w w' : World) : Prop :=
  fdtable w ⊆ fdtable w' ∧ sockets w ⊆ sockets w'.

Definition keeping {A} (c : Go A) : Prop := ∀ w, keeps w (c w).2.

(** What a successful [Accept] adds to the descriptor table of [w]: three
    descriptors of the new socket, none of which was open before.  [cfd] is
    the connection's own, [fd] the one of the file, [nfd] the stream's. *)
Definition three_descriptors (w w' : World) (cfd fd nfd : Z) : Prop :=
  fdtable w !! cfd = None ∧ fdtable w !! fd = None ∧ fdtable w !! nfd = None ∧
  cfd ≠ fd ∧ cfd ≠ nfd ∧ fd ≠ nfd ∧
  0 ≤ cfd ∧ 0 < fd ∧ 0 ≤ nfd ∧
  fdtable w' =
    <[nfd := alloc_sock (sockets w)]>
      (<[fd := alloc_sock (sockets w)]>
         (<[cfd := alloc_sock (sockets w)]> (fdtable w))) ∧
  ∃ sk, sockets w' = <[alloc_sock (sockets w) := sk]> (sockets w).

(** Errors of the two steps that work on the file: the descriptor extraction
    and the stream construction. *)
Definition file_error (e : error) : bool :=
  match e with
  | OpError op _ _ => String.eqb op "file"
  | _ => false
  end.

(** No descriptor of [w] names a socket that is gone. *)
Definition no_dangling (w : World) : Prop :=
  ∀ fd s, fdtable w !! fd = Some s → is_Some (sockets w !! s).

(** The variants that hold a listening socket. *)
Definition stream_variant (l : listener) : bool :=
  match l with
  | Plain _ | Secured _ => true
  | Datagram _ => false
  end.

(** The descriptor a listener value holds, if any. *)
Definition listener_sysfd (l : listener) : option Z :=
  match l with
  | Plain t => l_sysfd <$> TCPListener.Listener t
  | Secured t => l_sysfd <$> TLSListener.Listener t
  | Datagram _ => None
  end.

(** The listener's descriptor names a live socket that listens. *)
Definition listening_now (w : World) (l : listener) : Prop :=
  ∃ fd s sk, listener_sysfd l = Some fd ∧ fdtable w !! fd = Some s ∧
             sockets w !! s = Some sk ∧ so_state sk = Listening.

(** * Facts about the kernel *)

Section first_free.
Context `{Countable K} {V : Type}.
Variable f : nat → K.
Hypothesis f_inj : Inj (=) (=) f.

Lemma first_free_fresh (t : gmap K V) : t !! first_free f t = None.
Proof using f_inj.
  unfold first_free.
  destruct (list_find _ _) as [[i n]|] eqn:E.
  - apply list_find_Some in E. tauto.
  - exfalso. apply list_find_None in E.
    assert (Hsub : (list_to_set (f <$> seq 0 (S (size t))) : gset K) ⊆ dom t).
    { intros k Hk. apply elem_of_list_to_set, list_elem_of_fmap in Hk.
      destruct Hk as (n & -> & Hn).
      rewrite Forall_forall in E. specialize (E n Hn).
      apply elem_of_dom. destruct (t !! f n); [eauto | done]. }
    apply subseteq_size in Hsub.
    rewrite size_list_to_set in Hsub.
    + rewrite length_fmap, length_seq, size_dom in Hsub. lia.
    + apply NoDup_fmap; [done | apply NoDup_seq].
Qed.

Lemma first_free_lowest (t : gmap K V) :
  t !! f 0%nat = None → first_free f t = f 0%nat.
Proof.
  intros H0. unfold first_free. simpl.
  rewrite decide_True by done. reflexivity.
Qed.

Lemma first_free_range (t : gmap K V) : ∃ n, first_free f t = f n.
Proof.
  unfold first_free. destruct (list_find _ _) as [[i n]|]; eauto.
Qed.
End first_free.

Lemma alloc_fd_fresh t : t !! alloc_fd t = None.
Proof. apply first_free_fresh. exact Nat2Z.inj. Qed.

Lemma alloc_fd_nonneg t : 0 ≤ alloc_fd t.
Proof. destruct (first_free_range Z.of_nat t) as [n Hn]. unfold alloc_fd. lia. Qed.

Lemma alloc_sock_fresh s : s !! alloc_sock s = None.
Proof. apply first_free_fresh. intros x y. done. Qed.

(** With descriptor 0 free, [alloc_fd] hands out 0; so the descriptor granted
    right after another one, which is still open, is never 0. *)
Lemma alloc_fd_second (t : gmap Z nat) (s : nat) :
  alloc_fd (<[alloc_fd t := s]> t) ≠ 0.
Proof.
  intros Hz.
  pose proof (alloc_fd_fresh (<[alloc_fd t := s]> t)) as Hfresh.
  rewrite Hz in Hfresh.
  destruct (decide (alloc_fd t = 0)) as [E|E].
  - rewrite E, lookup_insert_eq in Hfresh. done.
  - rewrite lookup_insert_ne in Hfresh by done.
    apply E. unfold alloc_fd. apply (first_free_lowest Z.of_nat). exact Hfresh.
Qed.

Lemma int_uintptr (x : Z) : 0 ≤ x < RLIMIT_NOFILE → int (uintptr x) = x.
Proof.
  intros Hx. unfold int, uintptr, RLIMIT_NOFILE in *.
  rewrite Z.mod_small by lia.
  destruct (x <? 2 ^ 63) eqn:E; [done | apply Z.ltb_ge in E; lia].
Qed.

Lemma int_Fd_nil : int (os_File_Fd None) = -1.
Proof. reflexivity. Qed.

Lemma fd_lookup_Some w fd s :
  fd_lookup w fd = Some s ↔ 0 ≤ fd ∧ fdtable w !! fd = Some s.
Proof.
  unfold fd_lookup. destruct (fd <? 0) eqn:E.
  - apply Z.ltb_lt in E. split; [done | lia].
  - apply Z.ltb_ge in E. tauto.
Qed.

Lemma ephemeral_port_range p s : 32768 ≤ ephemeral_port p s.
Proof. unfold ephemeral_port. destruct (list_find _ _) as [[i n]|]; lia. Qed.

Lemma bound_port_given p a s : Port a ≠ 0 → bound_port p a s = Port a.
Proof. intros H. unfold bound_port. destruct (Port a =? 0) eqn:E; [lia | done]. Qed.

Lemma bound_port_chosen p a s : Port a = 0 → 32768 ≤ bound_port p a s.
Proof.
  intros H. unfold bound_port. rewrite H. simpl. apply ephemeral_port_range.
Qed.

(** A system call either fails as scripted, leaving only a trace entry, or
    runs its body in a world that differs in the script alone. *)
Lemma syscall_cases {A} (name : string) (body : World → sysret A * World) w :
  (∃ e rest, script w = Some e :: rest ∧
     syscall name body w = (Fail e, log (EvFail name e) (set_script rest w)))
  ∨ (∃ w0, syscall name body w = body w0 ∧ sockets w0 = sockets w ∧
       fdtable w0 = fdtable w ∧ resolver w0 = resolver w ∧ trace w0 = trace w).
Proof.
  unfold syscall. destruct (script w) as [|[e|] rest].
  - right. exists w. done.
  - left. eauto.
  - right. eexists. split; [reflexivity | done].
Qed.

Ltac by_syscall H :=
  match type of H with
  | syscall ?name ?body ?w = _ =>
      let e := fresh "e" in let rest := fresh "rest" in
      let w0 := fresh "w0" in let Hs := fresh "Hs" in
      let Hsk := fresh "Hsocks" in let Hfd := fresh "Hfds" in
      let Hr := fresh "Hres" in let Ht := fresh "Htr" in
      destruct (syscall_cases name body w)
        as [(e & rest & Hs & ->)|(w0 & -> & Hsk & Hfd & Hr & Ht)] in H;
      [ | cbv beta in H; unfold fd_lookup in H; try rewrite Hfd in H;
          try rewrite Hsk in H ]
  end.

Lemma sys_dup_ok fd w nfd w' :
  sys_dup fd w = (Ok nfd, w') →
  ∃ s, 0 ≤ fd ∧ fdtable w !! fd = Some s ∧ nfd = alloc_fd (fdtable w) ∧
       nfd < RLIMIT_NOFILE ∧ fdtable w' = <[nfd := s]> (fdtable w) ∧
       sockets w' = sockets w.
Proof.
  unfold sys_dup. intros H. by_syscall H; [done|].
  destruct (fd <? 0) eqn:Hneg; [done|]. apply Z.ltb_ge in Hneg.
  destruct (fdtable w !! fd) as [s|] eqn:Hl; [|done].
  destruct (alloc_fd (fdtable w) <? RLIMIT_NOFILE) eqn:Hlim; [|done].
  apply Z.ltb_lt in Hlim. injection H as <- <-. exists s. simpl.
  rewrite ?Hfds, ?Hsocks. done.
Qed.

Lemma sys_dup_fail fd w e w' :
  sys_dup fd w = (Fail e, w') →
  fdtable w' = fdtable w ∧ sockets w' = sockets w.
Proof.
  unfold sys_dup. intros H. by_syscall H.
  { injection H as <- <-. done. }
  destruct (fd <? 0); [injection H as <- <-; done|].
  destruct (fdtable w !! fd) as [s|]; [|injection H as <- <-; done].
  destruct (alloc_fd (fdtable w) <? RLIMIT_NOFILE); [done|].
  injection H as <- <-. done.
Qed.

Lemma sys_dup_negative fd w : fd < 0 → ∃ e, (sys_dup fd w).1 = Fail e.
Proof.
  intros Hneg. unfold sys_dup.
  match goal with
  | |- context [syscall ?n ?b ?w] =>
      destruct (syscall_cases n b w) as [(e & rest & _ & ->)|(w0 & -> & _)]
  end; [eauto|].
  unfold fd_lookup. apply Z.ltb_lt in Hneg. rewrite Hneg. eauto.
Qed.

Lemma sys_accept_ok fd w nfd w' :
  sys_accept fd w = (Ok nfd, w') →
  ∃ s sk, fdtable w !! fd = Some s ∧ sockets w !! s = Some sk ∧
    so_state sk = Listening ∧
    nfd = alloc_fd (fdtable w) ∧ nfd < RLIMIT_NOFILE ∧
    fdtable w' = <[nfd := alloc_sock (sockets w)]> (fdtable w) ∧
    sockets w' = <[alloc_sock (sockets w) :=
                     {| so_proto := TCP; so_state := Connected;
                        so_local := so_local sk |}]> (sockets w).
Proof.
  unfold sys_accept. intros H. by_syscall H; [done|].
  destruct (fd <? 0); [done|].
  destruct (fdtable w !! fd) as [s|] eqn:Hl; [|done].
  destruct (sockets w !! s) as [sk|] eqn:Hsk; [|done].
  case_bool_decide as Hst; [|done].
  destruct (alloc_fd (fdtable w) <? RLIMIT_NOFILE) eqn:Hlim; [|done].
  apply Z.ltb_lt in Hlim. injection H as <- <-. exists s, sk. simpl.
  rewrite ?Hfds, ?Hsocks. done.
Qed.

Lemma sys_accept_fail fd w e w' :
  sys_accept fd w = (Fail e, w') →
  fdtable w' = fdtable w ∧ sockets w' = sockets w.
Proof.
  unfold sys_accept. intros H. by_syscall H.
  { injection H as <- <-. done. }
  repeat first
    [ match type of H with (Fail _, _) = _ => injection H as <- <-; done end
    | match type of H with (Ok _, _) = _ => done end
    | match type of H with
      | context [match ?x with _ => _ end] => destruct x
      end ].
Qed.

Lemma sys_socket_ok p w fd w' :
  sys_socket p w = (Ok fd, w') →
  fd = alloc_fd (fdtable w) ∧ fd < RLIMIT_NOFILE ∧
  fdtable w' = <[fd := alloc_sock (sockets w)]> (fdtable w) ∧
  sockets w' = <[alloc_sock (sockets w) :=
                   {| so_proto := p; so_state := Unbound;
                      so_local := zero_addr |}]> (sockets w) ∧
  resolver w' = resolver w.
Proof.
  unfold sys_socket. intros H. by_syscall H; [done|].
  destruct (alloc_fd (fdtable w) <? RLIMIT_NOFILE) eqn:Hlim; [|done].
  apply Z.ltb_lt in Hlim. injection H as <- <-. simpl.
  rewrite ?Hfds, ?Hsocks. done.
Qed.

Lemma sys_socket_fail p w e w' :
  sys_socket p w = (Fail e, w') →
  fdtable w' = fdtable w ∧ sockets w' = sockets w.
Proof.
  unfold sys_socket. intros H. by_syscall H.
  { injection H as <- <-. done. }
  destruct (alloc_fd (fdtable w) <? RLIMIT_NOFILE); [done|].
  injection H as <- <-. done.
Qed.

Lemma sys_bind_ok fd a w u w' :
  sys_bind fd a w = (Ok u, w') →
  ∃ s sk, fdtable w !! fd = Some s ∧ sockets w !! s = Some sk ∧
    so_state sk = Unbound ∧
    fdtable w' = fdtable w ∧
    sockets w' = <[s := {| so_proto := so_proto sk; so_state := Bound;
                           so_local := {| IP := IP a;
                                          Port := bound_port (so_proto sk) a (sockets w) |} |}]>
                   (sockets w).
Proof.
  unfold sys_bind. intros H. by_syscall H; [done|].
  destruct (fd <? 0); [done|].
  destruct (fdtable w !! fd) as [s|] eqn:Hl; [|done].
  destruct (sockets w !! s) as [sk|] eqn:Hsk; [|done].
  case_bool_decide as Hst; simpl in H; [|done].
  destruct (negb (Port a =? 0) && port_in_use (so_proto sk) (Port a) (sockets w));
    [done|].
  injection H as <- <-. exists s, sk. simpl. rewrite ?Hfds, ?Hsocks. done.
Qed.

Lemma sys_listen_ok fd w u w' :
  sys_listen fd w = (Ok u, w') →
  ∃ s sk, fdtable w !! fd = Some s ∧ sockets w !! s = Some sk ∧
    so_proto sk = TCP ∧ so_state sk = Bound ∧
    fdtable w' = fdtable w ∧
    sockets w' = <[s := {| so_proto := TCP; so_state := Listening;
                           so_local := so_local sk |}]> (sockets w).
Proof.
  unfold sys_listen. intros H. by_syscall H; [done|].
  destruct (fd <? 0); [done|].
  destruct (fdtable w !! fd) as [s|] eqn:Hl; [|done].
  destruct (sockets w !! s) as [sk|] eqn:Hsk; [|done].
  do 2 (case_bool_decide; simpl in H; [|done]).
  injection H as <- <-. exists s, sk. simpl. rewrite ?Hfds, ?Hsocks. done.
Qed.

(** Whatever [close] does, it leaves the other descriptors alone. *)
Lemma sys_close_frame fd w r w' :
  sys_close fd w = (r, w') →
  ∀ k, k ≠ fd → fdtable w' !! k = fdtable w !! k.
Proof.
  unfold sys_close. intros H k Hk. by_syscall H.
  { injection H as <- <-. done. }
  destruct (fd <? 0); [injection H as <- <-; simpl; congruence|].
  destruct (fdtable w !! fd) as [s|]; [|injection H as <- <-; simpl; congruence].
  injection H as <- <-. simpl. by rewrite lookup_delete_ne.
Qed.

(** * Facts about the standard library calls *)

Ltac go_unfold :=
  unfold mbind, Go_bind, mret, Go_ret, fmap, Go_fmap, kernel, panic,
    resolve, socket_proto in *; simpl in *.

Lemma net_AcceptTCP_inv l w o w' :
  net_AcceptTCP l w = (o, w') →
  (∃ e, o = Returned (None, Some e) ∧ stream_error e = false ∧
        fdtable w' = fdtable w ∧ sockets w' = sockets w)
  ∨ (∃ lst s sk nfd,
        l = Some lst ∧ o = Returned (Some {| c_sysfd := nfd |}, None) ∧
        fdtable w !! l_sysfd lst = Some s ∧ sockets w !! s = Some sk ∧
        so_state sk = Listening ∧
        nfd = alloc_fd (fdtable w) ∧ nfd < RLIMIT_NOFILE ∧
        fdtable w' = <[nfd := alloc_sock (sockets w)]> (fdtable w) ∧
        sockets w' = <[alloc_sock (sockets w) :=
                         {| so_proto := TCP; so_state := Connected;
                            so_local := so_local sk |}]> (sockets w)).
Proof.
  unfold net_AcceptTCP. destruct l as [lst|]; go_unfold.
  - destruct (sys_accept (l_sysfd lst) w) as [[nfd|e] w1] eqn:E; simpl;
      intros [= <- <-].
    + right. apply sys_accept_ok in E.
      destruct E as (s & sk & ? & ? & ? & ? & ? & ? & ?).
      exists lst, s, sk, nfd. done.
    + left. apply sys_accept_fail in E. destruct E. eauto.
  - intros [= <- <-]. left. eauto.
Qed.

Lemma dup_file_inv network fd w o w' :
  dup_file network fd w = (o, w') →
  (∃ e, o = Returned (None, Some (OpError "file" network (SyscallError "dup" e))) ∧
        fdtable w' = fdtable w ∧ sockets w' = sockets w)
  ∨ (∃ s nfd,
        o = Returned (Some {| f_fd := nfd |}, None) ∧
        fdtable w !! fd = Some s ∧
        nfd = alloc_fd (fdtable w) ∧ nfd < RLIMIT_NOFILE ∧
        fdtable w' = <[nfd := s]> (fdtable w) ∧ sockets w' = sockets w).
Proof.
  unfold dup_file. go_unfold.
  destruct (sys_dup fd w) as [[nfd|e] w1] eqn:E; simpl; intros [= <- <-].
  - right. apply sys_dup_ok in E. destruct E as (s & ? & ? & ? & ? & ? & ?).
    exists s, nfd. done.
  - left. apply sys_dup_fail in E. eauto.
Qed.

(** On a nil file the duplication fails and the wrapping of its error
    faults. *)
Lemma net_FileConn_nil w : (net_FileConn None w).1 = Panicked NilDereference.
Proof.
  unfold net_FileConn. go_unfold.
  destruct (sys_dup_negative (-1) w) as [e He]; [lia|].
  change (int (2 ^ 64 - 1)) with (-1).
  destruct (sys_dup (-1) w) as [[nfd|e'] w1]; simpl in *; done.
Qed.

Lemma net_FileConn_inv f w o w' :
  0 ≤ f_fd f < RLIMIT_NOFILE →
  net_FileConn (Some f) w = (o, w') →
  (∃ e, o = Returned (None, Some (OpError "file" "file+net" e)) ∧
        ∀ k, is_Some (fdtable w !! k) → fdtable w' !! k = fdtable w !! k)
  ∨ (∃ s sk nfd,
        o = Returned (Some (conn_of (so_proto sk) nfd), None) ∧
        fdtable w !! f_fd f = Some s ∧ sockets w !! s = Some sk ∧
        nfd = alloc_fd (fdtable w) ∧
        fdtable w' = <[nfd := s]> (fdtable w) ∧ sockets w' = sockets w).
Proof.
  intros Hf. unfold net_FileConn. go_unfold. rewrite (int_uintptr _ Hf).
  destruct (sys_dup (f_fd f) w) as [[nfd|e] w1] eqn:E; simpl.
  - apply sys_dup_ok in E. destruct E as (s & ? & Hl & Hn & ? & Ht & Hs).
    assert (Hnew : fd_lookup w1 nfd = Some s).
    { apply fd_lookup_Some. split; [subst nfd; apply alloc_fd_nonneg|].
      rewrite Ht. apply lookup_insert_eq. }
    rewrite Hnew. simpl. rewrite Hs.
    destruct (sockets w !! s) as [sk|] eqn:Hsk; simpl.
    + destruct (so_proto sk) eqn:Hp; intros [= <- <-]; right;
        exists s, sk, nfd; rewrite Hp; done.
    + destruct (sys_close nfd w1) as [r w2] eqn:Hc. simpl.
      intros [= <- <-]. left. eexists. split; [done|].
      intros k [v Hk]. rewrite (sys_close_frame _ _ _ _ Hc).
      * rewrite Ht. apply lookup_insert_ne. intros ->. subst.
        rewrite alloc_fd_fresh in Hk. done.
      * intros ->. subst. rewrite alloc_fd_fresh in Hk. done.
  - apply sys_dup_fail in E. destruct E as [Ht Hs].
    intros [= <- <-]. left. eexists. split; [done|]. intros. by rewrite Ht.
Qed.

Lemma bind_fresh p fd a w1 w u w2 :
  sys_socket p w = (Ok fd, w1) →
  sys_bind fd a w1 = (Ok u, w2) →
  fd = alloc_fd (fdtable w) ∧ fd < RLIMIT_NOFILE ∧
  fdtable w2 = <[fd := alloc_sock (sockets w)]> (fdtable w) ∧
  sockets w2 = <[alloc_sock (sockets w) := fresh_socket p Bound a (sockets w)]>
                 (sockets w).
Proof.
  intros Hs Hb.
  apply sys_socket_ok in Hs. destruct Hs as (Hfd & Hlim & Ht1 & Hs1 & _).
  apply sys_bind_ok in Hb. destruct Hb as (s & sk & Hl & Hsk & _ & Ht2 & Hs2).
  rewrite Ht1, lookup_insert_eq in Hl. injection Hl as <-.
  rewrite Hs1, lookup_insert_eq in Hsk. injection Hsk as <-.
  rewrite Ht2, Hs2, Hs1, Ht1, insert_insert_eq. done.
Qed.

Lemma net_ListenUDP_inv network laddr w o w' :
  net_ListenUDP network laddr w = (o, w') →
  (∃ e, o = Returned (None, Some (OpError "listen" network e)))
  ∨ (∃ fd,
        o = Returned (Some {| u_sysfd := fd |}, None) ∧
        fd = alloc_fd (fdtable w) ∧ fd < RLIMIT_NOFILE ∧
        fdtable w' = <[fd := alloc_sock (sockets w)]> (fdtable w) ∧
        sockets w' = <[alloc_sock (sockets w) :=
                         fresh_socket UDP Bound (default zero_addr laddr) (sockets w)]>
                       (sockets w)).
Proof.
  unfold net_ListenUDP. go_unfold.
  destruct (sys_socket UDP w) as [[fd|e] w1] eqn:Hs; simpl.
  - destruct (sys_bind fd (default zero_addr laddr) w1) as [[u|e] w2] eqn:Hb; simpl.
    + intros [= <- <-]. right. exists fd.
      destruct (bind_fresh _ _ _ _ _ _ _ Hs Hb) as (? & ? & ? & ?). done.
    + destruct (sys_close fd w2) as [r w3]. simpl. intros [= <- <-]. left. eauto.
  - intros [= <- <-]. left. eauto.
Qed.

Lemma net_ListenTCP_inv network laddr w o w' :
  net_ListenTCP network laddr w = (o, w') →
  (∃ e, o = Returned (None, Some (OpError "listen" network e)))
  ∨ (∃ fd,
        o = Returned (Some {| l_sysfd := fd |}, None) ∧
        fd = alloc_fd (fdtable w) ∧ fd < RLIMIT_NOFILE ∧
        fdtable w' = <[fd := alloc_sock (sockets w)]> (fdtable w) ∧
        sockets w' = <[alloc_sock (sockets w) :=
                         fresh_socket TCP Listening (default zero_addr laddr) (sockets w)]>
                       (sockets w)).
Proof.
  unfold net_ListenTCP. go_unfold.
  destruct (sys_socket TCP w) as [[fd|e] w1] eqn:Hs; simpl.
  - destruct (sys_bind fd (default zero_addr laddr) w1) as [[u|e] w2] eqn:Hb; simpl.
    + destruct (bind_fresh _ _ _ _ _ _ _ Hs Hb) as (Hfd & Hlim & Ht & Hsk).
      destruct (sys_listen fd w2) as [[u'|e] w3] eqn:Hl; simpl.
      * intros [= <- <-]. right. exists fd.
        apply sys_listen_ok in Hl.
        destruct Hl as (s & sk & Hl1 & Hl2 & _ & _ & Ht3 & Hs3).
        rewrite Ht, lookup_insert_eq in Hl1. injection Hl1 as <-.
        rewrite Hsk, lookup_insert_eq in Hl2. injection Hl2 as <-.
        rewrite Ht3, Hs3, Hsk, Ht, insert_insert_eq. done.
      * destruct (sys_close fd w3) as [r w4]. simpl. intros [= <- <-]. left. eauto.
    + destruct (sys_close fd w2) as [r w3]. simpl. intros [= <- <-]. left. eauto.
  - intros [= <- <-]. left. eauto.
Qed.

(** * What [Accept] returns *)

Lemma file_step network w w1 cfd sk o w2 :
  obtained w w1 cfd sk →
  dup_file network cfd w1 = (o, w2) →
  network ≠ "file+net" →
  (∃ e, o = Returned (None, Some e) ∧ stream_error e = false)
  ∨ (∃ f, o = Returned (Some f, None) ∧
          0 ≤ f_fd f < RLIMIT_NOFILE ∧ f_fd f ≠ 0 ∧
          fdtable w2 !! f_fd f = Some (alloc_sock (sockets w)) ∧
          sockets w2 = sockets w1).
Proof.
  intros (Hc & Ht & Hs) H Hnet. apply dup_file_inv in H.
  destruct H as [(e & -> & _)|(s & nfd & -> & Hl & Hn & Hlim & Ht2 & Hs2)].
  - left. eexists. split; [done|]. simpl. by apply String.eqb_neq.
  - right. exists {| f_fd := nfd |}. simpl.
    rewrite Ht, lookup_insert_eq in Hl. injection Hl as <-.
    split; [done|]. split; [subst nfd; split; [apply alloc_fd_nonneg|done]|].
    split.
    + subst nfd. rewrite Ht, Hc. apply alloc_fd_second.
    + rewrite Ht2, lookup_insert_eq. done.
Qed.

Lemma conn_step w w1 cfd sk f w2 o w3 :
  obtained w w1 cfd sk →
  0 ≤ f_fd f < RLIMIT_NOFILE →
  fdtable w2 !! f_fd f = Some (alloc_sock (sockets w)) →
  sockets w2 = sockets w1 →
  net_FileConn (Some f) w2 = (o, w3) →
  (∃ e, o = Returned (None, Some e) ∧ stream_error e = true ∧
        is_Some (fdtable w3 !! f_fd f))
  ∨ (∃ nfd, o = Returned (Some (conn_of (so_proto sk) nfd), None) ∧
            refers_to w3 (f_fd f) (alloc_sock (sockets w)) ∧
            refers_to w3 nfd (alloc_sock (sockets w)) ∧
            sockets w3 !! alloc_sock (sockets w) = Some sk).
Proof.
  intros (Hc & Ht & Hs) Hf Hl Hs2 H. apply net_FileConn_inv in H; [|done].
  destruct H as [(e & -> & Hk)|(s & sk' & nfd & -> & Hl' & Hsk & Hn & Ht3 & Hs3)].
  - left. eexists. split; [done|]. split; [done|].
    rewrite Hk; rewrite Hl; eauto.
  - right. rewrite Hl in Hl'. injection Hl' as <-.
    rewrite Hs2, Hs, lookup_insert_eq in Hsk. injection Hsk as <-.
    assert (Hlive : sockets w3 !! alloc_sock (sockets w) = Some sk).
    { rewrite Hs3, Hs2, Hs. apply lookup_insert_eq. }
    exists nfd. split; [done|]. unfold refers_to. rewrite Hlive, Ht3.
    assert (nfd ≠ f_fd f).
    { intros E. pose proof (alloc_fd_fresh (fdtable w2)) as Hfr.
      rewrite <- Hn, E, Hl in Hfr. done. }
    rewrite lookup_insert_eq, lookup_insert_ne, Hl by done.
    repeat split; eauto; try lia. subst nfd. apply alloc_fd_nonneg.
Qed.

Lemma accepted_obtained l w c w1 :
  net_AcceptTCP l w = (Returned (Some c, None), w1) →
  ∃ sk, (so_proto sk = TCP ∧ so_state sk = Connected) ∧ obtained w w1 (c_sysfd c) sk.
Proof.
  intros H. apply net_AcceptTCP_inv in H.
  destruct H as [(e & [=] & _)|(lst & s & sk & nfd & _ & [= ->] & _ & _ & _ & ? & _ & ? & ?)].
  eexists. split; [|done]. done.
Qed.

Lemma TLSListener_Accept_result tl w :
  accept_result TCP (λ sk, so_state sk = Connected)
    (λ c, tls_Server (Some c) (TLSListener.Config tl)) false w
    (TLSListener.Accept tl w).1 (TLSListener.Accept tl w).2.
Proof.
  unfold TLSListener.Accept. go_unfold.
  destruct (net_AcceptTCP (TLSListener.Listener tl) w) as [o w1] eqn:Ha.
  destruct (net_AcceptTCP_inv _ _ _ _ Ha)
    as [(e & -> & He & _)|(lst & s & sk & nfd & _ & -> & _)]; simpl.
  { by apply accept_early. }
  destruct (accepted_obtained _ _ _ _ Ha) as (sk' & [Hp Hst] & Hob). simpl in Hob.
  destruct (dup_file "tcp" nfd w1) as [o2 w2] eqn:Hf.
  destruct (file_step _ _ _ _ _ _ _ Hob Hf)
    as [(e & -> & He)|(f & -> & Hrange & Hnz & Hl & Hs)]; [done| |]; simpl.
  { by apply accept_early. }
  destruct (net_FileConn (Some f) w2) as [o3 w3] eqn:Hc.
  destruct (conn_step _ _ _ _ _ _ _ _ Hob Hrange Hl Hs Hc)
    as [(e & -> & He & Hopen)|(cfd & -> & Hr1 & Hr2 & Hlive)]; simpl.
  - rewrite (int_uintptr _ Hrange). by apply accept_late.
  - rewrite (int_uintptr _ Hrange), Hp.
    apply (accept_done TCP _ (λ c, tls_Server (Some c) (TLSListener.Config tl))
             false w (f_fd f) cfd sk'); try done.
    apply alloc_sock_fresh.
Qed.

Lemma UDPListener_Accept_result ul w :
  accept_result UDP
    (λ sk, sk = fresh_socket UDP Bound (default zero_addr (UDPListener.Laddr ul)) (sockets w))
    id false w (UDPListener.Accept ul w).1 (UDPListener.Accept ul w).2.
Proof.
  unfold UDPListener.Accept. go_unfold.
  destruct (net_ListenUDP "udp" (UDPListener.Laddr ul) w) as [o w1] eqn:Ha.
  destruct (net_ListenUDP_inv _ _ _ _ _ Ha)
    as [(e & ->)|(fd & -> & Hfd & _ & Ht & Hsk)]; simpl.
  { by apply accept_early. }
  assert (Hob : obtained w w1 fd
                  (fresh_socket UDP Bound (default zero_addr (UDPListener.Laddr ul))
                     (sockets w))) by done.
  destruct (dup_file "udp" fd w1) as [o2 w2] eqn:Hf.
  destruct (file_step _ _ _ _ _ _ _ Hob Hf)
    as [(e & -> & He)|(f & -> & Hrange & Hnz & Hl & Hs)]; [done| |]; simpl.
  { by apply accept_early. }
  destruct (net_FileConn (Some f) w2) as [o3 w3] eqn:Hc.
  destruct (conn_step _ _ _ _ _ _ _ _ Hob Hrange Hl Hs Hc)
    as [(e & -> & He & Hopen)|(cfd & -> & Hr1 & Hr2 & Hlive)]; simpl.
  - rewrite (int_uintptr _ Hrange). by apply accept_late.
  - rewrite (int_uintptr _ Hrange).
    apply (accept_done UDP _ id false w (f_fd f) cfd
             (fresh_socket UDP Bound (default zero_addr (UDPListener.Laddr ul))
                (sockets w))); try done.
    apply alloc_sock_fresh.
Qed.

Lemma TCPListener_Accept_result tl w :
  accept_result TCP (λ sk, so_state sk = Connected) id true w (TCPListener.Accept tl w).1 (TCPListener.Accept tl w).2.
Proof.
  unfold TCPListener.Accept. go_unfold.
  destruct (net_AcceptTCP (TCPListener.Listener tl) w) as [o w1] eqn:Ha.
  destruct (net_AcceptTCP_inv _ _ _ _ Ha)
    as [(e & -> & He & _)|(lst & s & sk & nfd & _ & -> & _)]; simpl.
  { by apply accept_early. }
  destruct (accepted_obtained _ _ _ _ Ha) as (sk' & [Hp Hst] & Hob). simpl in Hob.
  destruct (dup_file "tcp" nfd w1) as [o2 w2] eqn:Hf.
  destruct (file_step _ _ _ _ _ _ _ Hob Hf)
    as [(e & -> & He)|(f & -> & Hrange & Hnz & Hl & Hs)]; [done| |]; simpl.
  { pose proof (net_FileConn_nil w2) as Hnil.
    destruct (net_FileConn None w2) as [o3 w3]. simpl in Hnil. subst o3.
    by apply accept_fault. }
  destruct (net_FileConn (Some f) w2) as [o3 w3] eqn:Hc.
  destruct (conn_step _ _ _ _ _ _ _ _ Hob Hrange Hl Hs Hc)
    as [(e & -> & He & Hopen)|(cfd & -> & Hr1 & Hr2 & Hlive)]; simpl.
  - rewrite (int_uintptr _ Hrange). by apply accept_late.
  - rewrite (int_uintptr _ Hrange), Hp.
    apply (accept_done TCP _ id true w (f_fd f) cfd sk'); try done.
    apply alloc_sock_fresh.
Qed.

(** * Calls that do no input or output on a stream *)

Lemma no_io_refl w : no_io w w.
Proof. exists []. split; [done | constructor]. Qed.

Lemma no_io_trans w1 w2 w3 : no_io w1 w2 → no_io w2 w3 → no_io w1 w3.
Proof.
  intros (e1 & H1 & F1) (e2 & H2 & F2). exists (e2 ++ e1)%list.
  split; [by rewrite H2, H1, app_assoc | by apply Forall_app].
Qed.

Lemma no_io_log ev w w0 : is_io ev = false → trace w0 = trace w → no_io w (log ev w0).
Proof.
  intros Hev Ht. exists [ev]. simpl. rewrite Ht.
  split; [done | by repeat constructor].
Qed.

Lemma quiet_ret {A} (a : A) : quiet (mret a).
Proof. intros w. apply no_io_refl. Qed.

Lemma quiet_panic {A} p : quiet (@panic A p).
Proof. intros w. apply no_io_refl. Qed.

Lemma quiet_bind {A B} (c : Go A) (k : A → Go B) :
  quiet c → (∀ a, quiet (k a)) → quiet (c ≫= k).
Proof.
  intros Hc Hk w. specialize (Hc w). go_unfold.
  destruct (c w) as [[a|p] w1]; simpl in *; [|done].
  eapply no_io_trans; [exact Hc | apply Hk].
Qed.

Lemma syscall_no_io {A} name (body : World → sysret A * World) :
  (∀ w, no_io w (body w).2) → ∀ w, no_io w (syscall name body w).2.
Proof.
  intros Hb w. unfold syscall. destruct (script w) as [|[e|] rest]; simpl.
  - apply Hb.
  - by apply no_io_log.
  - apply (Hb (set_script rest w)).
Qed.

Ltac solve_no_io :=
  intros; apply syscall_no_io; intros; unfold fd_lookup;
  repeat case_match; simpl;
  first [ apply no_io_refl | by apply no_io_log ].

Lemma quiet_socket p : quiet (kernel (sys_socket p)).
Proof. intros w. unfold kernel, sys_socket. simpl. revert w. solve_no_io. Qed.
Lemma quiet_bind_call fd a : quiet (kernel (sys_bind fd a)).
Proof. intros w. unfold kernel, sys_bind. simpl. revert w. solve_no_io. Qed.
Lemma quiet_listen fd : quiet (kernel (sys_listen fd)).
Proof. intros w. unfold kernel, sys_listen. simpl. revert w. solve_no_io. Qed.
Lemma quiet_accept fd : quiet (kernel (sys_accept fd)).
Proof. intros w. unfold kernel, sys_accept. simpl. revert w. solve_no_io. Qed.
Lemma quiet_dup fd : quiet (kernel (sys_dup fd)).
Proof. intros w. unfold kernel, sys_dup. simpl. revert w. solve_no_io. Qed.
Lemma quiet_close fd : quiet (kernel (sys_close fd)).
Proof. intros w. unfold kernel, sys_close. simpl. revert w. solve_no_io. Qed.

Create HintDb quiet.
#[global] Hint Resolve quiet_socket quiet_bind_call quiet_listen quiet_accept
  quiet_dup quiet_close : quiet.
#[global] Hint Extern 1 (quiet (mret _)) => apply quiet_ret : quiet.
#[global] Hint Extern 1 (quiet (panic _)) => apply quiet_panic : quiet.
#[global] Hint Extern 1 (quiet (resolve _ _)) => (intros ?; apply no_io_refl) : quiet.
#[global] Hint Extern 1 (quiet (socket_proto _)) => (intros ?; apply no_io_refl) : quiet.
#[global] Hint Extern 2 (quiet (_ ≫= _)) => (apply quiet_bind; [|intros ?]) : quiet.
#[global] Hint Extern 3 (quiet (match ?x with _ => _ end)) => destruct x : quiet.

Lemma quiet_AcceptTCP l : quiet (net_AcceptTCP l).
Proof. unfold net_AcceptTCP. auto 10 with quiet. Qed.

Lemma quiet_dup_file network fd : quiet (dup_file network fd).
Proof. unfold dup_file. auto 10 with quiet. Qed.

Lemma quiet_FileConn f : quiet (net_FileConn f).
Proof. unfold net_FileConn. auto 20 with quiet. Qed.

Lemma quiet_TLSListener_Accept tl : quiet (TLSListener.Accept tl).
Proof.
  pose proof quiet_AcceptTCP. pose proof quiet_dup_file. pose proof quiet_FileConn.
  unfold TLSListener.Accept, net_TCPConn_File. auto 30 with quiet.
Qed.

(** * The claims *)

Lemma Conn_fd_conn_of p fd : Conn_fd (conn_of p fd) = Some fd.
Proof. by destruct p. Qed.

Lemma listener_Accept_result (l : listener) w :
  ∃ p Q wrap faulty,
    accept_result p Q wrap faulty w (listener_Accept l w).1 (listener_Accept l w).2 ∧
    (∀ c, Conn_fd (wrap c) = Conn_fd c) ∧
    (faulty = true → ∃ tl, l = Plain tl).
Proof.
  destruct l as [tl|tl|ul]; simpl.
  - eexists TCP, _, id, true. split; [apply TCPListener_Accept_result|]. eauto.
  - eexists TCP, _, (λ c, tls_Server (Some c) (TLSListener.Config tl)), false.
    split; [apply TLSListener_Accept_result|]. done.
  - eexists UDP, _, id, false. split; [apply UDPListener_Accept_result|]. done.
Qed.

(** C2.  For every variant, when [Accept] returns with a nil error, the
    stream is not nil and the returned descriptor and the stream's own
    descriptor name one and the same socket, which is live in the world
    [Accept] leaves. *)
Theorem Accept_descriptor_and_stream_share_socket (l : listener) w fd conn w' :
  listener_Accept l w = (Returned (fd, conn, None), w') →
  ∃ c, conn = Some c ∧ same_live_socket w' fd c.
Proof.
  intros H. destruct (listener_Accept_result l w) as (p & Q & wrap & faulty & R & Hw & _).
  rewrite H in R. simpl in R. inversion R; subst.
  eexists. split; [done|]. exists (alloc_sock (sockets w)), nfd.
  rewrite Hw, Conn_fd_conn_of. done.
Qed.

Lemma Accept_descriptor_and_stream_share_socket_witness :
  ∃ c, Some (OfTCP {| c_sysfd := 6 |}) = Some c ∧
       same_live_socket
         (after (listener_Accept (Plain (value tcp0 (Listen tcp0 ":6666" None) (boot []))))
            (after (Listen tcp0 ":6666" None) (boot [])))
         5 c.
Proof.
  apply (Accept_descriptor_and_stream_share_socket
           (Plain (value tcp0 (Listen tcp0 ":6666" None) (boot [])))
           (after (Listen tcp0 ":6666" None) (boot []))).
  vm_compute. reflexivity.
Defined.

(** C3, counterexample.  On a Secured listener whose accepted socket is
    duplicated once and whose second duplication fails for lack of
    descriptors, [Accept] returns descriptor 5 with its error. *)
Lemma zero_on_error_counterexample :
  (listener_Accept (Secured (tls_listening [None; None; Some EMFILE]))
     (tls_world [None; None; Some EMFILE])).1
  = Returned (5, None, Some (OpError "file" "file+net" (SyscallError "dup" EMFILE)))
  ∧ ¬ zero_on_error.
Proof.
  split; [vm_compute; reflexivity|].
  intros Hc.
  destruct (Hc (Secured (tls_listening [None; None; Some EMFILE]))
              (tls_world [None; None; Some EMFILE])
              5 None (OpError "file" "file+net" (SyscallError "dup" EMFILE))
              (after (listener_Accept (Secured (tls_listening [None; None; Some EMFILE])))
                 (tls_world [None; None; Some EMFILE]))) as [Hfd _].
  - vm_compute. reflexivity.
  - discriminate Hfd.
Qed.

(** C3, amended.  For every variant, when [Accept] returns an error the
    stream is nil.  The descriptor is zero unless the error is that of the
    stream construction; then it is the descriptor of the duplicated file,
    which is not zero and still open.  Only the Plain variant can panic
    instead of returning. *)
Theorem Accept_error_results (l : listener) w :
  match listener_Accept l w with
  | (Returned (fd, conn, Some e), w') =>
      conn = None ∧
      if stream_error e then fd ≠ 0 ∧ is_Some (fdtable w' !! fd) else fd = 0
  | (Returned (_, _, None), _) => True
  | (Panicked _, _) => ∃ tl, l = Plain tl
  end.
Proof.
  destruct (listener_Accept_result l w) as (p & Q & wrap & faulty & R & _ & Hf).
  destruct (listener_Accept l w) as [o w']. simpl in R.
  inversion R as [e w1 He|fd e w1 He Hnz Hopen|fd nfd sk w1 _ _ _ _ _ _|w1 Hfaulty]; subst.
  - by rewrite He.
  - by rewrite He.
  - done.
  - by apply Hf.
Qed.


(** On a fixed port the second call does not even succeed: the socket of the
    first call still holds the port. *)
Example second_Accept_address_in_use :
  (listener_Accept (Datagram (udp_listening ":6666"))
     (after (listener_Accept (Datagram (udp_listening ":6666"))) (boot []))).1
  = Returned (0, None, Some (OpError "listen" "udp" (SyscallError "bind" EADDRINUSE))).
Proof. vm_compute. reflexivity. Qed.



Lemma Secured_Listen_empty_config (tl : TLSListener.t) port cfg w :
  Certificates cfg = [] →
  listener_Listen (Secured tl) port (Some cfg) w
  = (Panicked (PanicError (ErrorString "tls.Listen: no certificates in configuration")), w).
Proof.
  intros Hc. simpl. unfold TLSListener.Listen, net_ResolveTCPAddr. go_unfold.
  rewrite Hc. by destruct (resolver w "tcp" port).
Qed.

(** C5.  [Listen] on the Secured variant with a configuration that holds no
    certificate fails with the configuration error, raised as a panic, and
    leaves the world as it found it: no socket is made, no descriptor is
    handed out, and the trace gains no system call, so no bind was tried. *)
Theorem TLS_Listen_no_certificates (tl : TLSListener.t) port cfg w :
  Certificates cfg = [] →
  listener_Listen (Secured tl) port (Some cfg) w
  = (Panicked (PanicError (ErrorString "tls.Listen: no certificates in configuration")), w).
Proof. apply Secured_Listen_empty_config. Qed.

Lemma TLS_Listen_no_certificates_witness :
  listener_Listen (Secured tls0) ":6666" (Some config0) (boot [])
  = (Panicked (PanicError (ErrorString "tls.Listen: no certificates in configuration")),
     boot []).
Proof. apply (TLS_Listen_no_certificates tls0 ":6666" config0 (boot [])). reflexivity. Defined.

(** C7.  [Close] on the Datagram variant returns a nil error in every world
    and for every listener value, whether [Listen] has filled it or not; it
    changes nothing. *)
Theorem UDP_Close_always_nil (ul : UDPListener.t) w :
  listener_Close (Datagram ul) w = (Returned None, w).
Proof. reflexivity. Qed.

(** C9.  In [Accept] on the Plain variant, once the kernel accept has
    succeeded, the error of the descriptor extraction never reaches the
    caller.  If the extraction fails, the call panics on the nil file.  In
    any case the error that is returned is the one of the stream
    construction, which overwrites it. *)
Theorem TCP_Accept_extraction_error_lost (tl : TCPListener.t) w c w1 file err1 w2 :
  net_AcceptTCP (TCPListener.Listener tl) w = (Returned (Some c, None), w1) →
  net_TCPConn_File (Some c) w1 = (Returned (file, err1), w2) →
  (err1 ≠ None → (TCPListener.Accept tl w).1 = Panicked NilDereference) ∧
  (∀ conn err2 w3,
     net_FileConn file w2 = (Returned (conn, err2), w3) →
     TCPListener.Accept tl w = (Returned (int (os_File_Fd file), conn, err2), w3)).
Proof.
  intros Ha Hf. unfold TCPListener.Accept. go_unfold. rewrite Ha. simpl.
  rewrite Hf. simpl. split.
  - intros Herr. apply dup_file_inv in Hf.
    destruct Hf as [(e & [= -> ->] & _)|(s & nfd & [= -> ->] & _)]; [|done].
    pose proof (net_FileConn_nil w2) as Hnil.
    destruct (net_FileConn None w2) as [o w3]. simpl in *. by subst o.
  - intros conn err2 w3 Hc. by rewrite Hc.
Qed.

Lemma TCP_Accept_extraction_error_lost_witness :
  (Some (OpError "file" "tcp" (SyscallError "dup" EMFILE)) ≠ None →
   (TCPListener.Accept (tcp_listening [None; Some EMFILE])
      (tcp_world [None; Some EMFILE])).1 = Panicked NilDereference) ∧
  (∀ conn err2 w3,
     net_FileConn None
       (after (net_TCPConn_File (Some {| c_sysfd := 4 |}))
          (after (net_AcceptTCP (TCPListener.Listener (tcp_listening [None; Some EMFILE])))
             (tcp_world [None; Some EMFILE])))
     = (Returned (conn, err2), w3) →
     TCPListener.Accept (tcp_listening [None; Some EMFILE]) (tcp_world [None; Some EMFILE])
     = (Returned (int (os_File_Fd None), conn, err2), w3)).
Proof.
  apply (TCP_Accept_extraction_error_lost
           (tcp_listening [None; Some EMFILE]) (tcp_world [None; Some EMFILE])
           {| c_sysfd := 4 |}
           (after (net_AcceptTCP (TCPListener.Listener (tcp_listening [None; Some EMFILE])))
              (tcp_world [None; Some EMFILE]))
           None (Some (OpError "file" "tcp" (SyscallError "dup" EMFILE)))).
  - vm_compute. reflexivity.
  - vm_compute. reflexivity.
Defined.

(** A run in which the extraction fails, evaluated. *)
Example TCP_Accept_faults :
  (TCPListener.Accept (tcp_listening [None; Some EMFILE])
     (tcp_world [None; Some EMFILE])).1 = Panicked NilDereference.
Proof. vm_compute. reflexivity. Qed.

Lemma raw_io_runs rd fd w :
  script w = [] → is_Some (fd_lookup w fd) →
  raw_io rd fd w = (Returned None, log (io_event rd fd) w).
Proof.
  intros Hs [s Hl]. unfold raw_io. go_unfold. unfold syscall.
  rewrite Hs, Hl. by destruct rd.
Qed.

(** The first read or write on a fresh server-side stream runs the handshake
    and then the operation. *)
Lemma first_io_handshakes rd fd cfg w :
  script w = [] → is_Some (fd_lookup w fd) →
  Conn_io rd (OfTLS (Some (OfTCP {| c_sysfd := fd |})) cfg false) w
  = (Returned (OfTLS (Some (OfTCP {| c_sysfd := fd |})) cfg true, None),
     log (io_event rd fd) (log (EvHandshake fd) w)).
Proof.
  intros Hs Hl. simpl. unfold tls_Handshake. go_unfold. unfold syscall.
  rewrite Hs. simpl.
  rewrite (raw_io_runs rd fd (log (EvHandshake fd) w)) by done. done.
Qed.

(** Later reads and writes do not run it again. *)
Lemma later_io_no_handshake rd fd cfg w :
  script w = [] → is_Some (fd_lookup w fd) →
  Conn_io rd (OfTLS (Some (OfTCP {| c_sysfd := fd |})) cfg true) w
  = (Returned (OfTLS (Some (OfTCP {| c_sysfd := fd |})) cfg true, None),
     log (io_event rd fd) w).
Proof.
  intros Hs Hl. simpl. go_unfold. by rewrite (raw_io_runs rd fd w).
Qed.

(** C8.  When [Accept] on the Secured variant succeeds, the stream is the
    server-side TLS wrapper of the accepted socket's connection, built from
    the listener's stored configuration, with the handshake not done; the
    call itself did no handshake, read or write.  The first read or write on
    that stream runs the handshake just before the operation, and a later
    one does not run it again. *)
Theorem TLS_Accept_defers_handshake (tl : TLSListener.t) w fd conn w' :
  TLSListener.Accept tl w = (Returned (fd, conn, None), w') →
  ∃ nfd,
    conn = Some (OfTLS (Some (OfTCP {| c_sysfd := nfd |})) (TLSListener.Config tl) false) ∧
    sockets w !! alloc_sock (sockets w) = None ∧
    refers_to w' nfd (alloc_sock (sockets w)) ∧
    no_io w w' ∧
    ∀ rd w1, script w1 = [] → is_Some (fd_lookup w1 nfd) →
      ∃ c1 w2,
        Conn_io rd (OfTLS (Some (OfTCP {| c_sysfd := nfd |})) (TLSListener.Config tl) false) w1
        = (Returned (c1, None), w2) ∧
        trace w2 = io_event rd nfd :: EvHandshake nfd :: trace w1 ∧
        ∀ rd', trace (after (Conn_io rd' c1) w2) = io_event rd' nfd :: trace w2.
Proof.
  intros H. pose proof (TLSListener_Accept_result tl w) as R.
  pose proof (quiet_TLSListener_Accept tl w) as Hq.
  rewrite H in R, Hq. simpl in R, Hq.
  inversion R as [| |? nfd sk ? Hfr Hr1 Hr2 Hl _ _|]; subst.
  exists nfd. do 4 (split; [done|]).
  intros rd w1 Hs Hopen. eexists _, _. split; [by apply first_io_handshakes|].
  split; [done|]. intros rd'. unfold after.
  rewrite later_io_no_handshake; done.
Qed.

Lemma TLS_Accept_defers_handshake_witness :
  ∃ nfd,
    Some (OfTLS (Some (OfTCP {| c_sysfd := 6 |})) (Some config1) false)
    = Some (OfTLS (Some (OfTCP {| c_sysfd := nfd |}))
              (TLSListener.Config (tls_listening [])) false) ∧
    sockets (tls_world []) !! alloc_sock (sockets (tls_world [])) = None ∧
    refers_to (after (TLSListener.Accept (tls_listening [])) (tls_world []))
      nfd (alloc_sock (sockets (tls_world []))) ∧
    no_io (tls_world []) (after (TLSListener.Accept (tls_listening [])) (tls_world [])) ∧
    ∀ rd w1, script w1 = [] → is_Some (fd_lookup w1 nfd) →
      ∃ c1 w2,
        Conn_io rd (OfTLS (Some (OfTCP {| c_sysfd := nfd |}))
                      (TLSListener.Config (tls_listening [])) false) w1
        = (Returned (c1, None), w2) ∧
        trace w2 = io_event rd nfd :: EvHandshake nfd :: trace w1 ∧
        ∀ rd', trace (after (Conn_io rd' c1) w2) = io_event rd' nfd :: trace w2.
Proof.
  apply (TLS_Accept_defers_handshake (tls_listening []) (tls_world []) 5).
  vm_compute. reflexivity.
Defined.

(** The stream of a served Secured listener, read once: the trace shows the
    accept and the two duplications, then the handshake, then the read. *)
Example TLS_first_read_trace :
  trace (after (Conn_Read (OfTLS (Some (OfTCP {| c_sysfd := 6 |})) (Some config1) false))
           (after (TLSListener.Accept (tls_listening [])) (tls_world [])))
  = [EvRead 6; EvHandshake 6; EvDup 5 6; EvDup 4 5; EvAccept 3 4;
     EvListen 3; EvBind 3 {| IP := []; Port := 6666 |}; EvSocket TCP 3].
Proof. vm_compute. reflexivity. Qed.

(** * What [Listen] does *)

Lemma net_ListenTCP_listening network laddr w l w' :
  net_ListenTCP network laddr w = (Returned (l, None), w') →
  listening_at w w' l (default zero_addr laddr).
Proof.
  intros H. apply net_ListenTCP_inv in H.
  destruct H as [(e & [=])|(fd & [= ->] & Hfd & Hlim & Ht & Hs)].
  eexists _, _. split; [done|]. split; [apply alloc_sock_fresh|].
  unfold refers_to. rewrite Ht, Hs, !lookup_insert_eq. simpl.
  split; [split; [subst fd; apply alloc_fd_nonneg | eauto]|].
  split; [done|]. do 3 (split; [done|]).
  split; [apply bound_port_given | apply bound_port_chosen].
Qed.

Lemma TCPListener_Listen_eq tl port cfg w :
  TCPListener.Listen tl port cfg w
  = match net_ListenTCP "tcp" (resolver w "tcp" port) w with
    | (Returned (l, None), w') => (Returned {| TCPListener.Listener := l |}, w')
    | (Returned (_, Some e), w') => (Panicked (PanicError e), w')
    | (Panicked p, w') => (Panicked p, w')
    end.
Proof.
  unfold TCPListener.Listen, net_ResolveTCPAddr. go_unfold.
  destruct (resolver w "tcp" port); simpl;
    destruct (net_ListenTCP _ _ w) as [[[l [e|]]|p] w']; done.
Qed.

Lemma TLSListener_Listen_eq tl port c w :
  Certificates c ≠ [] →
  TLSListener.Listen tl port (Some c) w
  = match net_ListenTCP "tcp" (resolver w "tcp" port) w with
    | (Returned (l, None), w') =>
        (Returned {| TLSListener.Listener := l; TLSListener.Config := Some c |}, w')
    | (Returned (_, Some e), w') => (Panicked (PanicError e), w')
    | (Panicked p, w') => (Panicked p, w')
    end.
Proof.
  intros Hc. unfold TLSListener.Listen, net_ResolveTCPAddr. go_unfold.
  destruct (Certificates c) as [|c0 cs]; [done|]. simpl.
  destruct (resolver w "tcp" port); simpl;
    destruct (net_ListenTCP _ _ w) as [[[l [e|]]|p] w']; done.
Qed.

Lemma UDPListener_Listen_eq ul port cfg w :
  UDPListener.Listen ul port cfg w
  = (Returned {| UDPListener.Laddr := resolver w "udp" port |}, w).
Proof.
  unfold UDPListener.Listen, net_ResolveUDPAddr. go_unfold.
  by destruct (resolver w "udp" port).
Qed.

Lemma net_ListenTCP_no_panic network laddr w p w' :
  net_ListenTCP network laddr w ≠ (Panicked p, w').
Proof.
  intros H. apply net_ListenTCP_inv in H.
  destruct H as [(e & [=])|(fd & [=] & _)].
Qed.

Lemma TCPListener_Listen_returns tl port cfg w tl' w' :
  TCPListener.Listen tl port cfg w = (Returned tl', w') →
  net_ListenTCP "tcp" (resolver w "tcp" port) w
  = (Returned (TCPListener.Listener tl', None), w').
Proof.
  rewrite TCPListener_Listen_eq.
  destruct (net_ListenTCP _ _ w) as [[[l [e|]]|p] w1]; intros [= <- <-]; done.
Qed.

Lemma TLSListener_Listen_returns tl port cfg w tl' w' :
  TLSListener.Listen tl port cfg w = (Returned tl', w') →
  (∃ c, cfg = Some c ∧ Certificates c ≠ []) ∧
  TLSListener.Config tl' = cfg ∧
  net_ListenTCP "tcp" (resolver w "tcp" port) w
  = (Returned (TLSListener.Listener tl', None), w').
Proof.
  destruct cfg as [c|].
  - destruct (Certificates c) as [|c0 cs] eqn:Hc.
    + unfold TLSListener.Listen, net_ResolveTCPAddr. go_unfold. rewrite Hc.
      by destruct (resolver w "tcp" port).
    + rewrite TLSListener_Listen_eq by (by rewrite Hc).
      destruct (net_ListenTCP _ _ w) as [[[l [e|]]|p] w1]; intros [= <- <-].
      split; [exists c; by rewrite Hc | done].
  - unfold TLSListener.Listen, net_ResolveTCPAddr. go_unfold.
    by destruct (resolver w "tcp" port).
Qed.

Lemma fmap_returns {A B} (f : A → B) (c : Go A) w b w' :
  (f <$> c) w = (Returned b, w') → ∃ a, c w = (Returned a, w') ∧ b = f a.
Proof.
  go_unfold. destruct (c w) as [[a|p] w1]; intros [= <- <-]. eauto.
Qed.

(** C6, counterexample.  [Listen] on the Datagram variant returns and leaves
    the world as it was: there is no new socket. *)
Lemma Listen_makes_bound_socket_counterexample :
  listener_Listen (Datagram udp0) ":6666" None (boot [])
  = (Returned (Datagram {| UDPListener.Laddr := Some {| IP := []; Port := 6666 |} |}),
     boot [])
  ∧ ¬ Listen_makes_bound_socket.
Proof.
  assert (H : listener_Listen (Datagram udp0) ":6666" None (boot [])
              = (Returned (Datagram {| UDPListener.Laddr :=
                                         Some {| IP := []; Port := 6666 |} |}),
                 boot [])) by reflexivity.
  split; [exact H|]. intros Hc.
  destruct (Hc _ _ _ _ _ _ H) as (s & sk & Hnone & Hsome & _). congruence.
Qed.

Lemma Listen_returns_shape (l : listener) port cfg w l' w' :
  listener_Listen l port cfg w = (Returned l', w') →
  match l' with
  | Plain t =>
      listening_at w w' (TCPListener.Listener t)
        (default zero_addr (resolver w "tcp" port))
  | Secured t =>
      listening_at w w' (TLSListener.Listener t)
        (default zero_addr (resolver w "tcp" port))
      ∧ TLSListener.Config t = cfg
  | Datagram u =>
      w' = w ∧ UDPListener.Laddr u = resolver w "udp" port ∧
      ∀ w0 fd c w1,
        listener_Accept (Datagram u) w0 = (Returned (fd, Some c, None), w1) →
        sockets w0 !! alloc_sock (sockets w0) = None ∧
        handles_of w1 fd c (alloc_sock (sockets w0))
  end.
Proof.
  intros H. destruct l as [tl|tl|ul]; simpl in H;
    apply fmap_returns in H; destruct H as (t & H & ->).
  - apply TCPListener_Listen_returns in H. by apply net_ListenTCP_listening in H.
  - apply TLSListener_Listen_returns in H. destruct H as (_ & Hcfg & H).
    by apply net_ListenTCP_listening in H.
  - unfold Listen, UDPListener_TrudyListener in H.
    rewrite UDPListener_Listen_eq in H. injection H as <- <-.
    do 2 (split; [done|]). intros w0 fd c w1 Ha. simpl in Ha.
    pose proof (UDPListener_Accept_result
                  {| UDPListener.Laddr := resolver w "udp" port |} w0) as R.
    rewrite Ha in R. simpl in R.
    inversion R as [| |? nfd sk ? Hfr Hr1 Hr2 _ _ _|]; subst.
    split; [done|]. by exists nfd.
Qed.

(** C6, amended.  A [Listen] that returns on the Plain or the Secured variant
    has made a socket, bound it at the resolved address and put it to
    listen; the listener holds its descriptor.  On the Datagram variant
    [Listen] only stores the resolved address and makes no socket; there the
    socket is made by each successful [Accept]. *)
Theorem Listen_binding (l : listener) port cfg w l' w' :
  listener_Listen l port cfg w = (Returned l', w') →
  match l' with
  | Plain t =>
      listening_at w w' (TCPListener.Listener t)
        (default zero_addr (resolver w "tcp" port))
  | Secured t =>
      listening_at w w' (TLSListener.Listener t)
        (default zero_addr (resolver w "tcp" port))
      ∧ TLSListener.Config t = cfg
  | Datagram u =>
      w' = w ∧ UDPListener.Laddr u = resolver w "udp" port ∧
      ∀ w0 fd c w1,
        listener_Accept (Datagram u) w0 = (Returned (fd, Some c, None), w1) →
        sockets w0 !! alloc_sock (sockets w0) = None ∧
        handles_of w1 fd c (alloc_sock (sockets w0))
  end.
Proof. apply Listen_returns_shape. Qed.

Lemma Listen_binding_witness :
  listening_at (boot []) (after (Listen tcp0 "127.0.0.1:8443" None) (boot []))
    (TCPListener.Listener (value tcp0 (Listen tcp0 "127.0.0.1:8443" None) (boot [])))
    (default zero_addr (resolver (boot []) "tcp" "127.0.0.1:8443")).
Proof.
  apply (Listen_binding (Plain tcp0) "127.0.0.1:8443" None (boot [])
           (Plain (value tcp0 (Listen tcp0 "127.0.0.1:8443" None) (boot [])))).
  vm_compute. reflexivity.
Defined.

(** With a kernel that refuses nothing and a descriptor to spare, listening
    on the zero address succeeds. *)
Lemma net_ListenTCP_zero_runs network w :
  script w = [] → alloc_fd (fdtable w) < RLIMIT_NOFILE →
  ∃ l w', net_ListenTCP network None w = (Returned (Some l, None), w').
Proof.
  intros Hs Hlim. unfold net_ListenTCP. go_unfold.
  assert (Hsock : ∃ w1, sys_socket TCP w = (Ok (alloc_fd (fdtable w)), w1) ∧ script w1 = []).
  { unfold sys_socket, syscall. rewrite Hs.
    apply Z.ltb_lt in Hlim. rewrite Hlim. eauto. }
  destruct Hsock as (w1 & Hsock & Hs1). rewrite Hsock. simpl.
  destruct (sys_socket_ok _ _ _ _ Hsock) as (_ & _ & Ht1 & Hsk1 & _).
  pose proof (alloc_fd_nonneg (fdtable w)) as Hnn.
  assert (Hlook : ∀ w2, fdtable w2 = fdtable w1 →
            fd_lookup w2 (alloc_fd (fdtable w)) = Some (alloc_sock (sockets w))).
  { intros w2 E. apply fd_lookup_Some. split; [done|].
    rewrite E, Ht1. apply lookup_insert_eq. }
  assert (Hbind : ∃ u w2, sys_bind (alloc_fd (fdtable w)) zero_addr w1 = (Ok u, w2) ∧
                          script w2 = []).
  { unfold sys_bind, syscall. rewrite Hs1, (Hlook w1) by done.
    rewrite Hsk1, lookup_insert_eq. simpl. eauto. }
  destruct Hbind as (u & w2 & Hbind & Hs2). rewrite Hbind. simpl.
  destruct (sys_bind_ok _ _ _ _ _ Hbind) as (s & sk & Hl & Hsk & _ & Ht2 & Hsk2).
  rewrite Ht1, lookup_insert_eq in Hl. injection Hl as <-.
  rewrite Hsk1, lookup_insert_eq in Hsk. injection Hsk as <-.
  assert (Hlisten : ∃ u' w3, sys_listen (alloc_fd (fdtable w)) w2 = (Ok u', w3)).
  { unfold sys_listen, syscall. rewrite Hs2, (Hlook w2) by done.
    rewrite Hsk2, lookup_insert_eq. simpl. eauto. }
  destruct Hlisten as (u' & w3 & Hlisten). rewrite Hlisten. simpl. eauto.
Qed.

(** C1, counterexample.  Without certificates the Secured [Listen] panics,
    and so does the Plain [Listen] on a port that is taken. *)
Lemma Listen_never_panics_counterexample :
  (listener_Listen (Secured tls0) ":6666" (Some config0) (boot [])).1
  = Panicked (PanicError (ErrorString "tls.Listen: no certificates in configuration"))
  ∧ (listener_Listen (Plain tcp0) ":6666" None busy_world).1
    = Panicked (PanicError (OpError "listen" "tcp" (SyscallError "bind" EADDRINUSE)))
  ∧ ¬ Listen_never_panics.
Proof.
  split; [reflexivity|]. split; [vm_compute; reflexivity|].
  intros Hc. destruct (Hc (Secured tls0) ":6666" (Some config0) (boot [])) as (l' & w' & H).
  discriminate H.
Qed.

(** C1, amended.  A failure that [Listen] detects on the Plain or on the
    Secured variant, the bind error of [net.ListenTCP] or the missing
    certificates, is raised as a panic that carries the error value;
    [Listen] has no error result.  On the Datagram variant [Listen] detects
    no failure and always returns. *)
Theorem Listen_failure_panics port cfg w :
  (∀ tl lst e w',
     net_ListenTCP "tcp" (resolver w "tcp" port) w = (Returned (lst, Some e), w') →
     listener_Listen (Plain tl) port cfg w = (Panicked (PanicError e), w'))
  ∧ (∀ tl c,
       cfg = Some c → Certificates c = [] →
       listener_Listen (Secured tl) port cfg w
       = (Panicked (PanicError (ErrorString "tls.Listen: no certificates in configuration")), w))
  ∧ (∀ tl c lst e w',
       cfg = Some c → Certificates c ≠ [] →
       net_ListenTCP "tcp" (resolver w "tcp" port) w = (Returned (lst, Some e), w') →
       listener_Listen (Secured tl) port cfg w = (Panicked (PanicError e), w'))
  ∧ (∀ ul, ∃ l', listener_Listen (Datagram ul) port cfg w = (Returned l', w)).
Proof.
  repeat split.
  - intros tl lst e w' H. simpl. unfold fmap, Go_fmap, Listen, TCPListener_TrudyListener.
    by rewrite TCPListener_Listen_eq, H.
  - intros tl c -> Hc. by apply Secured_Listen_empty_config.
  - intros tl c lst e w' -> Hc H. simpl.
    unfold fmap, Go_fmap, Listen, TLSListener_TrudyListener.
    by rewrite TLSListener_Listen_eq, H.
  - intros ul. simpl. unfold fmap, Go_fmap, Listen, UDPListener_TrudyListener.
    rewrite UDPListener_Listen_eq. eauto.
Qed.

Lemma Listen_failure_panics_witness :
  listener_Listen (Plain tcp0) ":6666" None busy_world
  = (Panicked (PanicError (OpError "listen" "tcp" (SyscallError "bind" EADDRINUSE))),
     after (net_ListenTCP "tcp" (Some {| IP := []; Port := 6666 |})) busy_world)
  ∧ listener_Listen (Secured tls0) ":6666" (Some config0) (boot [])
    = (Panicked (PanicError (ErrorString "tls.Listen: no certificates in configuration")),
       boot []).
Proof.
  split.
  - apply (proj1 (Listen_failure_panics ":6666" None busy_world) tcp0 None).
    vm_compute. reflexivity.
  - apply (proj1 (proj2 (Listen_failure_panics ":6666" (Some config0) (boot [])))
             tls0 config0); reflexivity.
Defined.

Lemma listening_at_zero w w' l :
  listening_at w w' l zero_addr →
  ∃ lst sk, l = Some lst ∧ refers_to w' (l_sysfd lst) (alloc_sock (sockets w)) ∧
            sockets w' !! alloc_sock (sockets w) = Some sk ∧
            so_state sk = Listening ∧ system_chosen sk.
Proof.
  intros (lst & sk & -> & _ & Hr & Hl & _ & Hst & Hip & _ & Hport).
  exists lst, sk. unfold system_chosen. rewrite Hip. eauto 10.
Qed.



(** The three variants on an address that does not resolve: the Plain and
    the Secured listener end up on port 32768, the first of the kernel's
    range; the Datagram listener stores a nil address and its [Accept] binds
    port 32768. *)
Example Plain_Listen_unresolved :
  map_to_list (sockets (after (Listen tcp0 "no such address" None) (boot [])))
  = [(1%nat, {| so_proto := TCP; so_state := Listening;
                so_local := {| IP := []; Port := 32768 |} |});
     (0%nat, {| so_proto := TCP; so_state := Connected; so_local := zero_addr |})].
Proof. vm_compute. reflexivity. Qed.

Example Secured_Listen_unresolved :
  map_to_list (sockets (after (Listen tls0 "no such address" (Some config1)) (boot [])))
  = [(1%nat, {| so_proto := TCP; so_state := Listening;
                so_local := {| IP := []; Port := 32768 |} |});
     (0%nat, {| so_proto := TCP; so_state := Connected; so_local := zero_addr |})].
Proof. vm_compute. reflexivity. Qed.

Example Datagram_Listen_unresolved :
  Listen udp0 "no such address" None (boot [])
  = (Returned {| UDPListener.Laddr := None |}, boot [])
  ∧ map_to_list (sockets (after (Accept {| UDPListener.Laddr := None |}) (boot [])))
    = [(1%nat, {| so_proto := UDP; so_state := Bound;
                  so_local := {| IP := []; Port := 32768 |} |});
       (0%nat, {| so_proto := TCP; so_state := Connected; so_local := zero_addr |})].
Proof. split; [reflexivity | vm_compute; reflexivity]. Qed.

(** * Further properties of the package *)

(** ** What a call leaves untouched *)

Lemma keeps_refl w : keeps w w.
Proof. done. Qed.

Lemma keeps_trans w1 w2 w3 : keeps w1 w2 → keeps w2 w3 → keeps w1 w3.
Proof. intros [? ?] [? ?]. split; etrans; done. Qed.

Lemma keeps_same w w' :
  fdtable w' = fdtable w → sockets w' = sockets w → keeps w w'.
Proof. intros Ht Hs. unfold keeps. by rewrite Ht, Hs. Qed.

Lemma keeping_ret {A} (a : A) : keeping (mret a).
Proof. intros w. apply keeps_refl. Qed.

Lemma keeping_panic {A} p : keeping (@panic A p).
Proof. intros w. apply keeps_refl. Qed.

Lemma keeping_bind {A B} (c : Go A) (k : A → Go B) :
  keeping c → (∀ a, keeping (k a)) → keeping (c ≫= k).
Proof.
  intros Hc Hk w. specialize (Hc w). go_unfold.
  destruct (c w) as [[a|p] w1]; simpl in *; [|done].
  eapply keeps_trans; [exact Hc | apply Hk].
Qed.

Lemma sys_bind_fail fd a w e w' :
  sys_bind fd a w = (Fail e, w') →
  fdtable w' = fdtable w ∧ sockets w' = sockets w.
Proof.
  unfold sys_bind. intros H. by_syscall H.
  { injection H as <- <-. done. }
  repeat first
    [ match type of H with (Fail _, _) = _ => injection H as <- <-; done end
    | match type of H with (Ok _, _) = _ => done end
    | match type of H with
      | context [match ?x with _ => _ end] => destruct x
      end ].
Qed.

Lemma sys_listen_fail fd w e w' :
  sys_listen fd w = (Fail e, w') →
  fdtable w' = fdtable w ∧ sockets w' = sockets w.
Proof.
  unfold sys_listen. intros H. by_syscall H.
  { injection H as <- <-. done. }
  repeat first
    [ match type of H with (Fail _, _) = _ => injection H as <- <-; done end
    | match type of H with (Ok _, _) = _ => done end
    | match type of H with
      | context [match ?x with _ => _ end] => destruct x
      end ].
Qed.

(** [close] either changes no table, or drops the descriptor and, at most,
    the socket it named. *)
Lemma sys_close_cases fd w r w' :
  sys_close fd w = (r, w') →
  (∃ e, r = Fail e ∧ fdtable w' = fdtable w ∧ sockets w' = sockets w)
  ∨ (∃ s, r = Ok () ∧ 0 ≤ fd ∧ fdtable w !! fd = Some s ∧
          fdtable w' = delete fd (fdtable w) ∧
          (sockets w' = sockets w ∨ sockets w' = delete s (sockets w))).
Proof.
  unfold sys_close. intros H. by_syscall H.
  { injection H as <- <-. left. eauto. }
  destruct (fd <? 0) eqn:Hneg; [injection H as <- <-; left; eauto|].
  apply Z.ltb_ge in Hneg.
  destruct (fdtable w !! fd) as [s|] eqn:Hl; [|injection H as <- <-; left; eauto].
  injection H as <- <-. right. exists s. simpl.
  do 4 (split; [done|]).
  destruct (existsb _ _); [left | right]; done.
Qed.

Lemma keeps_new w w' fd ns sk :
  fdtable w !! fd = None → sockets w !! ns = None →
  fdtable w' = <[fd := ns]> (fdtable w) →
  sockets w' = <[ns := sk]> (sockets w) →
  keeps w w'.
Proof.
  intros Hfd Hns Ht Hs. unfold keeps. rewrite Ht, Hs.
  split; by apply insert_subseteq.
Qed.

(** Closing a descriptor that was handed out since [w], on a socket that was
    made since [w], gives back at least [w]. *)
Lemma close_new_keeps w w1 fd ns sk r w2 :
  fdtable w !! fd = None → sockets w !! ns = None →
  fdtable w1 = <[fd := ns]> (fdtable w) →
  sockets w1 = <[ns := sk]> (sockets w) →
  sys_close fd w1 = (r, w2) →
  keeps w w2.
Proof.
  intros Hfd Hns Ht Hs Hc. apply sys_close_cases in Hc.
  destruct Hc as [(e & _ & Ht2 & Hs2)|(s & _ & _ & Hl & Ht2 & Hs2)].
  - eapply keeps_new; [done | done | by rewrite Ht2 | by rewrite Hs2].
  - rewrite Ht, lookup_insert_eq in Hl. injection Hl as <-.
    unfold keeps. rewrite Ht2, Ht, delete_insert_id by done. split; [done|].
    destruct Hs2 as [-> | ->]; rewrite Hs.
    + by apply insert_subseteq.
    + by rewrite delete_insert_id.
Qed.

Lemma keeping_ListenUDP network laddr : keeping (net_ListenUDP network laddr).
Proof.
  intros w. unfold net_ListenUDP. go_unfold.
  destruct (sys_socket UDP w) as [[fd|e] w1] eqn:Hs; simpl.
  2: { apply sys_socket_fail in Hs. apply keeps_same; tauto. }
  pose proof (alloc_sock_fresh (sockets w)) as Hns.
  destruct (sys_bind fd (default zero_addr laddr) w1) as [[u|e] w2] eqn:Hb; simpl.
  - destruct (bind_fresh _ _ _ _ _ _ _ Hs Hb) as (-> & _ & Ht & Hsk).
    eapply keeps_new; [apply alloc_fd_fresh | done..].
  - apply sys_socket_ok in Hs. destruct Hs as (-> & _ & Ht1 & Hs1 & _).
    apply sys_bind_fail in Hb. destruct Hb as [Ht2 Hs2].
    destruct (sys_close _ w2) as [r w3] eqn:Hc. simpl.
    eapply close_new_keeps; [apply alloc_fd_fresh | exact Hns | | | exact Hc].
    + by rewrite Ht2.
    + by rewrite Hs2.
Qed.

Lemma keeping_ListenTCP network laddr : keeping (net_ListenTCP network laddr).
Proof.
  intros w. unfold net_ListenTCP. go_unfold.
  destruct (sys_socket TCP w) as [[fd|e] w1] eqn:Hs; simpl.
  2: { apply sys_socket_fail in Hs. apply keeps_same; tauto. }
  pose proof (alloc_sock_fresh (sockets w)) as Hns.
  destruct (sys_bind fd (default zero_addr laddr) w1) as [[u|e] w2] eqn:Hb; simpl.
  - destruct (bind_fresh _ _ _ _ _ _ _ Hs Hb) as (-> & _ & Ht & Hsk).
    destruct (sys_listen _ w2) as [[u'|e] w3] eqn:Hl; simpl.
    + apply sys_listen_ok in Hl.
      destruct Hl as (s & sk & Hl1 & _ & _ & _ & Ht3 & Hs3).
      rewrite Ht, lookup_insert_eq in Hl1. injection Hl1 as <-.
      rewrite Hsk, insert_insert_eq in Hs3.
      eapply keeps_new; [apply alloc_fd_fresh | exact Hns | by rewrite Ht3 | exact Hs3].
    + apply sys_listen_fail in Hl. destruct Hl as [Ht3 Hs3].
      destruct (sys_close _ w3) as [r w4] eqn:Hc. simpl.
      eapply close_new_keeps; [apply alloc_fd_fresh | exact Hns | | | exact Hc].
      * by rewrite Ht3.
      * by rewrite Hs3.
  - apply sys_socket_ok in Hs. destruct Hs as (-> & _ & Ht1 & Hs1 & _).
    apply sys_bind_fail in Hb. destruct Hb as [Ht2 Hs2].
    destruct (sys_close _ w2) as [r w3] eqn:Hc. simpl.
    eapply close_new_keeps; [apply alloc_fd_fresh | exact Hns | | | exact Hc].
    + by rewrite Ht2.
    + by rewrite Hs2.
Qed.

Lemma keeping_AcceptTCP l : keeping (net_AcceptTCP l).
Proof.
  intros w. destruct (net_AcceptTCP l w) as [o w'] eqn:H. simpl.
  apply net_AcceptTCP_inv in H.
  destruct H as [(e & _ & _ & Ht & Hs)|(lst & s & sk & nfd & _ & _ & _ & _ & _ & -> & _ & Ht & Hs)].
  - by apply keeps_same.
  - eapply keeps_new; [apply alloc_fd_fresh | apply alloc_sock_fresh | done..].
Qed.

Lemma keeps_dup w w' nfd s :
  fdtable w !! nfd = None →
  fdtable w' = <[nfd := s]> (fdtable w) → sockets w' = sockets w →
  keeps w w'.
Proof.
  intros Hfd Ht Hs. unfold keeps. rewrite Ht, Hs.
  split; [by apply insert_subseteq | done].
Qed.

Lemma keeping_dup_file network fd : keeping (dup_file network fd).
Proof.
  intros w. destruct (dup_file network fd w) as [o w'] eqn:H. simpl.
  apply dup_file_inv in H.
  destruct H as [(e & _ & Ht & Hs)|(s & nfd & _ & _ & -> & _ & Ht & Hs)].
  - by apply keeps_same.
  - eapply keeps_dup; [apply alloc_fd_fresh | done..].
Qed.

Lemma keeping_FileConn f : keeping (net_FileConn f).
Proof.
  intros w. unfold net_FileConn. go_unfold.
  destruct (sys_dup (int (os_File_Fd f)) w) as [[nfd|e] w1] eqn:E; simpl.
  - apply sys_dup_ok in E. destruct E as (s & _ & _ & -> & _ & Ht & Hs).
    assert (Hk : keeps w w1) by (eapply keeps_dup; [apply alloc_fd_fresh | done..]).
    assert (Hnew : fd_lookup w1 (alloc_fd (fdtable w)) = Some s).
    { apply fd_lookup_Some. split; [apply alloc_fd_nonneg|].
      rewrite Ht. apply lookup_insert_eq. }
    rewrite Hnew. simpl. rewrite Hs.
    destruct (sockets w !! s) as [sk|] eqn:Hsk; simpl.
    + by destruct (so_proto sk).
    + destruct (sys_close _ w1) as [r w2] eqn:Hc. simpl.
      assert (keeps w w2); [|by destruct f].
      apply sys_close_cases in Hc.
      destruct Hc as [(e & _ & Ht2 & Hs2)|(s' & _ & _ & Hl & Ht2 & Hs2)].
      * eapply keeps_trans; [exact Hk | by apply keeps_same].
      * rewrite Ht, lookup_insert_eq in Hl. injection Hl as <-.
        unfold keeps.
        rewrite Ht2, Ht, delete_insert_id by apply alloc_fd_fresh.
        split; [done|].
        destruct Hs2 as [-> | ->]; rewrite Hs; [done|].
        by rewrite delete_id.
  - apply sys_dup_fail in E. destruct E as [Ht Hs].
    assert (keeps w w1) by (by apply keeps_same). by destruct f.
Qed.

Create HintDb keeping.
#[global] Hint Resolve keeping_ListenUDP keeping_ListenTCP keeping_AcceptTCP
  keeping_dup_file keeping_FileConn : keeping.
#[global] Hint Extern 1 (keeping (mret _)) => apply keeping_ret : keeping.
#[global] Hint Extern 1 (keeping (panic _)) => apply keeping_panic : keeping.
#[global] Hint Extern 1 (keeping (resolve _ _)) => (intros ?; apply keeps_refl) : keeping.
#[global] Hint Extern 2 (keeping (_ ≫= _)) => (apply keeping_bind; [|intros ?]) : keeping.
#[global] Hint Extern 3 (keeping (match ?x with _ => _ end)) => destruct x : keeping.

Lemma keeping_fmap {A B} (f : A → B) (c : Go A) : keeping c → keeping (f <$> c).
Proof.
  intros Hc w. specialize (Hc w). go_unfold. by destruct (c w) as [[a|p] w1].
Qed.

Lemma keeping_TCPListener_Accept tl : keeping (TCPListener.Accept tl).
Proof. unfold TCPListener.Accept, net_TCPConn_File. auto 30 with keeping. Qed.

Lemma keeping_TLSListener_Accept tl : keeping (TLSListener.Accept tl).
Proof. unfold TLSListener.Accept, net_TCPConn_File. auto 30 with keeping. Qed.

Lemma keeping_UDPListener_Accept ul : keeping (UDPListener.Accept ul).
Proof. unfold UDPListener.Accept, net_UDPConn_File. auto 30 with keeping. Qed.

Lemma keeping_TCPListener_Listen tl port cfg : keeping (TCPListener.Listen tl port cfg).
Proof. unfold TCPListener.Listen, net_ResolveTCPAddr. auto 30 with keeping. Qed.

Lemma keeping_TLSListener_Listen tl port cfg : keeping (TLSListener.Listen tl port cfg).
Proof.
  unfold TLSListener.Listen, net_ResolveTCPAddr. destruct cfg as [c|].
  - destruct (Z.of_nat (length (Certificates c)) =? 0); auto 30 with keeping.
  - auto 30 with keeping.
Qed.

Lemma keeping_UDPListener_Listen ul port cfg : keeping (UDPListener.Listen ul port cfg).
Proof. unfold UDPListener.Listen, net_ResolveUDPAddr. auto 30 with keeping. Qed.

Lemma Listen_keeps_tables (l : listener) port cfg w :
  keeps w (after (listener_Listen l port cfg) w).
Proof.
  destruct l as [tl|tl|ul]; simpl; apply keeping_fmap.
  - apply keeping_TCPListener_Listen.
  - apply keeping_TLSListener_Listen.
  - apply keeping_UDPListener_Listen.
Qed.

(** X1.  On every variant and whatever its outcome (a result, an error or a
    panic), [Accept] closes and changes nothing that existed before the
    call: every descriptor that was open still names the same socket, and
    every socket that was live is unchanged. *)
Theorem Accept_keeps_existing (l : listener) w :
  keeps w (after (listener_Accept l) w).
Proof.
  destruct l as [tl|tl|ul]; simpl.
  - apply keeping_TCPListener_Accept.
  - apply keeping_TLSListener_Accept.
  - apply keeping_UDPListener_Accept.
Qed.

(** X2.  On every variant and whatever its outcome, [Listen] closes and
    changes nothing that existed before the call: every descriptor that was
    open still names the same socket, and every socket that was live is
    unchanged. *)
Theorem Listen_keeps_existing (l : listener) port cfg w :
  keeps w (after (listener_Listen l port cfg) w).
Proof.
  destruct l as [tl|tl|ul]; simpl; apply keeping_fmap.
  - apply keeping_TCPListener_Listen.
  - apply keeping_TLSListener_Listen.
  - apply keeping_UDPListener_Listen.
Qed.

(** ** The descriptors of an accepted connection *)

(** The two steps after the kernel has handed out the socket, when both
    succeed. *)
Lemma steps_succeed network w w1 cfd sk f w2 c w3 :
  obtained w w1 cfd sk →
  dup_file network cfd w1 = (Returned (Some f, None), w2) →
  net_FileConn (Some f) w2 = (Returned (c, None), w3) →
  int (os_File_Fd (Some f)) = f_fd f ∧
  ∃ nfd, c = Some (conn_of (so_proto sk) nfd) ∧
         three_descriptors w w3 cfd (f_fd f) nfd.
Proof.
  intros (Hc & Ht & Hs) Hf Hconn.
  apply dup_file_inv in Hf.
  destruct Hf as [(e & [=] & _)|(s & fd & [= ->] & Hl & Hfd & Hlim & Ht2 & Hs2)].
  simpl in *.
  rewrite Ht, lookup_insert_eq in Hl. injection Hl as <-.
  assert (Hrange : 0 ≤ fd < RLIMIT_NOFILE).
  { split; [subst fd; apply alloc_fd_nonneg | done]. }
  split; [by apply int_uintptr|].
  apply net_FileConn_inv in Hconn; [|done].
  destruct Hconn as [(e & [=] & _)|(s & sk' & nfd & [= ->] & Hl' & Hsk & Hn & Ht3 & Hs3)].
  simpl in *.
  rewrite Ht2, lookup_insert_eq in Hl'. injection Hl' as <-.
  rewrite Hs2, Hs, lookup_insert_eq in Hsk. injection Hsk as <-.
  exists nfd. split; [done|].
  pose proof (alloc_fd_fresh (fdtable w)) as F1.
  pose proof (alloc_fd_fresh (fdtable w1)) as F2.
  pose proof (alloc_fd_fresh (fdtable w2)) as F3.
  rewrite <- Hc in F1. rewrite <- Hfd, Ht in F2. rewrite <- Hn, Ht2, Ht in F3.
  apply lookup_insert_None in F2. destruct F2 as [F2 F2'].
  apply lookup_insert_None in F3. destruct F3 as [F3 F3'].
  apply lookup_insert_None in F3. destruct F3 as [F3 F3''].
  assert (fd ≠ 0).
  { rewrite Hfd, Ht, Hc. apply alloc_fd_second. }
  unfold three_descriptors.
  repeat split; try done; try lia.
  - subst cfd. apply alloc_fd_nonneg.
  - subst nfd. apply alloc_fd_nonneg.
  - by rewrite Ht3, Ht2, Ht.
  - exists sk. by rewrite Hs3, Hs2, Hs.
Qed.

Lemma ListenUDP_obtained network laddr w c w1 :
  net_ListenUDP network laddr w = (Returned (Some c, None), w1) →
  obtained w w1 (u_sysfd c)
    (fresh_socket UDP Bound (default zero_addr laddr) (sockets w)).
Proof.
  intros H. apply net_ListenUDP_inv in H.
  destruct H as [(e & [=])|(fd & [= ->] & ? & _ & ? & ?)]. done.
Qed.

(** The steps of a successful [Accept], variant by variant. *)
Lemma TCPListener_Accept_steps tl w fd conn w' :
  TCPListener.Accept tl w = (Returned (fd, conn, None), w') →
  ∃ c w1 f w2,
    net_AcceptTCP (TCPListener.Listener tl) w = (Returned (Some c, None), w1) ∧
    dup_file "tcp" (c_sysfd c) w1 = (Returned (Some f, None), w2) ∧
    net_FileConn (Some f) w2 = (Returned (conn, None), w') ∧
    fd = int (os_File_Fd (Some f)).
Proof.
  unfold TCPListener.Accept. go_unfold.
  destruct (net_AcceptTCP (TCPListener.Listener tl) w) as [o w1] eqn:Ha.
  destruct (net_AcceptTCP_inv _ _ _ _ Ha)
    as [(e & -> & _)|(lst & s & sk & nfd & _ & -> & _)]; simpl; [done|].
  destruct (dup_file "tcp" nfd w1) as [o2 w2] eqn:Hf.
  destruct (dup_file_inv _ _ _ _ _ Hf) as [(e & -> & _)|(s' & n & -> & _)]; simpl.
  - pose proof (net_FileConn_nil w2) as Hnil.
    destruct (net_FileConn None w2) as [o3 w3]. simpl in Hnil. by subst o3.
  - destruct (net_FileConn _ w2) as [[[c e]|p] w3] eqn:Hc; simpl; [|done].
    intros [= <- <- -> <-]. eexists _, _, _, _. repeat split; eauto.
Qed.

Lemma TLSListener_Accept_steps tl w fd conn w' :
  TLSListener.Accept tl w = (Returned (fd, conn, None), w') →
  ∃ c w1 f w2 fconn,
    net_AcceptTCP (TLSListener.Listener tl) w = (Returned (Some c, None), w1) ∧
    dup_file "tcp" (c_sysfd c) w1 = (Returned (Some f, None), w2) ∧
    net_FileConn (Some f) w2 = (Returned (fconn, None), w') ∧
    fd = int (os_File_Fd (Some f)) ∧
    conn = Some (tls_Server fconn (TLSListener.Config tl)).
Proof.
  unfold TLSListener.Accept. go_unfold.
  destruct (net_AcceptTCP (TLSListener.Listener tl) w) as [o w1] eqn:Ha.
  destruct (net_AcceptTCP_inv _ _ _ _ Ha)
    as [(e & -> & _)|(lst & s & sk & nfd & _ & -> & _)]; simpl; [done|].
  destruct (dup_file "tcp" nfd w1) as [o2 w2] eqn:Hf.
  destruct (dup_file_inv _ _ _ _ _ Hf) as [(e & -> & _)|(s' & n & -> & _)]; simpl;
    [done|].
  destruct (net_FileConn _ w2) as [[[c [e|]]|p] w3] eqn:Hc; simpl; [done| |done].
  intros [= <- <- <-]. eexists _, _, _, _, _. repeat split; eauto.
Qed.

Lemma UDPListener_Accept_steps ul w fd conn w' :
  UDPListener.Accept ul w = (Returned (fd, conn, None), w') →
  ∃ c w1 f w2,
    net_ListenUDP "udp" (UDPListener.Laddr ul) w = (Returned (Some c, None), w1) ∧
    dup_file "udp" (u_sysfd c) w1 = (Returned (Some f, None), w2) ∧
    net_FileConn (Some f) w2 = (Returned (conn, None), w') ∧
    fd = int (os_File_Fd (Some f)).
Proof.
  unfold UDPListener.Accept. go_unfold.
  destruct (net_ListenUDP "udp" (UDPListener.Laddr ul) w) as [o w1] eqn:Ha.
  destruct (net_ListenUDP_inv _ _ _ _ _ Ha)
    as [(e & ->)|(nfd & -> & _)]; simpl; [done|].
  destruct (dup_file "udp" nfd w1) as [o2 w2] eqn:Hf.
  destruct (dup_file_inv _ _ _ _ _ Hf) as [(e & -> & _)|(s' & n & -> & _)]; simpl;
    [done|].
  destruct (net_FileConn _ w2) as [[[c [e|]]|p] w3] eqn:Hc; simpl; [done| |done].
  intros [= <- <- <-]. eexists _, _, _, _. repeat split; eauto.
Qed.

Lemma TCPListener_Accept_descriptors tl w fd conn w' :
  TCPListener.Accept tl w = (Returned (fd, conn, None), w') →
  ∃ c cfd nfd, conn = Some c ∧ Conn_fd c = Some nfd ∧
               three_descriptors w w' cfd fd nfd.
Proof.
  intros H. apply TCPListener_Accept_steps in H.
  destruct H as (c & w1 & f & w2 & Ha & Hf & Hc & ->).
  destruct (accepted_obtained _ _ _ _ Ha) as (sk & _ & Hob).
  destruct (steps_succeed _ _ _ _ _ _ _ _ _ Hob Hf Hc) as (-> & nfd & -> & H3).
  eexists _, _, nfd. by rewrite Conn_fd_conn_of.
Qed.

Lemma TLSListener_Accept_descriptors tl w fd conn w' :
  TLSListener.Accept tl w = (Returned (fd, conn, None), w') →
  ∃ c cfd nfd, conn = Some c ∧ Conn_fd c = Some nfd ∧
               three_descriptors w w' cfd fd nfd.
Proof.
  intros H. apply TLSListener_Accept_steps in H.
  destruct H as (c & w1 & f & w2 & fconn & Ha & Hf & Hc & -> & ->).
  destruct (accepted_obtained _ _ _ _ Ha) as (sk & _ & Hob).
  destruct (steps_succeed _ _ _ _ _ _ _ _ _ Hob Hf Hc) as (-> & nfd & -> & H3).
  eexists _, _, nfd. split; [done|]. simpl. by rewrite Conn_fd_conn_of.
Qed.

Lemma UDPListener_Accept_descriptors ul w fd conn w' :
  UDPListener.Accept ul w = (Returned (fd, conn, None), w') →
  ∃ c cfd nfd, conn = Some c ∧ Conn_fd c = Some nfd ∧
               three_descriptors w w' cfd fd nfd.
Proof.
  intros H. apply UDPListener_Accept_steps in H.
  destruct H as (c & w1 & f & w2 & Ha & Hf & Hc & ->).
  pose proof (ListenUDP_obtained _ _ _ _ _ Ha) as Hob.
  destruct (steps_succeed _ _ _ _ _ _ _ _ _ Hob Hf Hc) as (-> & nfd & -> & H3).
  eexists _, _, nfd. by rewrite Conn_fd_conn_of.
Qed.

Lemma listener_Accept_descriptors (l : listener) w fd conn w' :
  listener_Accept l w = (Returned (fd, conn, None), w') →
  ∃ c cfd nfd, conn = Some c ∧ Conn_fd c = Some nfd ∧
               three_descriptors w w' cfd fd nfd.
Proof.
  destruct l as [tl|tl|ul]; simpl.
  - apply TCPListener_Accept_descriptors.
  - apply TLSListener_Accept_descriptors.
  - apply UDPListener_Accept_descriptors.
Qed.

Lemma three_descriptors_open w w' cfd fd nfd :
  three_descriptors w w' cfd fd nfd →
  fdtable w' !! cfd = Some (alloc_sock (sockets w)) ∧
  fdtable w' !! fd = Some (alloc_sock (sockets w)) ∧
  fdtable w' !! nfd = Some (alloc_sock (sockets w)).
Proof.
  intros (_ & _ & _ & H1 & H2 & H3 & _ & _ & _ & -> & _).
  rewrite lookup_insert_eq.
  rewrite (lookup_insert_ne _ nfd fd), lookup_insert_eq by done.
  rewrite (lookup_insert_ne _ nfd cfd), (lookup_insert_ne _ fd cfd),
    lookup_insert_eq by done.
  done.
Qed.



(** X4.  Two successful calls of [Accept], on the same or on different
    listeners, return different descriptors and streams over different
    descriptors, as long as nothing the first call opened has been closed in
    between; and the socket of the second call is not the socket of the
    first. *)
Theorem Accept_twice_distinct (l1 l2 : listener) w fd1 c1 w1 wm fd2 c2 w2 :
  listener_Accept l1 w = (Returned (fd1, Some c1, None), w1) →
  keeps w1 wm →
  listener_Accept l2 wm = (Returned (fd2, Some c2, None), w2) →
  ∃ n1 n2 s1 s2,
    Conn_fd c1 = Some n1 ∧ Conn_fd c2 = Some n2 ∧
    fd1 ≠ fd2 ∧ n1 ≠ n2 ∧ fd1 ≠ n2 ∧ n1 ≠ fd2 ∧
    fdtable w2 !! fd1 = Some s1 ∧ fdtable w2 !! fd2 = Some s2 ∧ s1 ≠ s2.
Proof.
  intros H1 [Hkt Hks] H2.
  apply listener_Accept_descriptors in H1.
  destruct H1 as (c & cfd1 & n1 & [= <-] & Hc1 & T1).
  apply listener_Accept_descriptors in H2.
  destruct H2 as (c & cfd2 & n2 & [= <-] & Hc2 & T2).
  destruct (three_descriptors_open _ _ _ _ _ T1) as (_ & O1 & O1').
  destruct (three_descriptors_open _ _ _ _ _ T2) as (_ & O2 & O2').
  apply (lookup_weaken _ _ _ _ O1) in Hkt as O1m.
  apply (lookup_weaken _ _ _ _ O1') in Hkt as O1m'.
  destruct T1 as (_ & _ & _ & _ & _ & _ & _ & _ & _ & _ & sk1 & S1).
  assert (L1 : sockets wm !! alloc_sock (sockets w) = Some sk1).
  { eapply lookup_weaken; [|exact Hks]. rewrite S1. apply lookup_insert_eq. }
  destruct T2 as (F2c & F2 & F2' & _ & ? & ? & _ & _ & _ & Ht2 & _).
  exists n1, n2, (alloc_sock (sockets w)), (alloc_sock (sockets wm)).
  do 2 (split; [done|]).
  assert (fd1 ≠ fd2) by congruence.
  assert (n1 ≠ n2) by congruence.
  assert (fd1 ≠ n2) by congruence.
  assert (n1 ≠ fd2) by congruence.
  assert (fd1 ≠ cfd2) by congruence.
  do 4 (split; [done|]).
  split.
  - rewrite Ht2, !lookup_insert_ne; [done|congruence..].
  - split; [done|]. intros E. rewrite E, alloc_sock_fresh in L1. done.
Qed.

Lemma Accept_twice_distinct_witness :
  ∃ n1 n2 s1 s2,
    Conn_fd (OfTCP {| c_sysfd := 6 |}) = Some n1 ∧
    Conn_fd (OfTCP {| c_sysfd := 9 |}) = Some n2 ∧
    5 ≠ 8 ∧ n1 ≠ n2 ∧ 5 ≠ n2 ∧ n1 ≠ 8 ∧
    fdtable (after (listener_Accept (Plain (tcp_listening [])))
               (after (listener_Accept (Plain (tcp_listening []))) (tcp_world [])))
      !! 5 = Some s1 ∧
    fdtable (after (listener_Accept (Plain (tcp_listening [])))
               (after (listener_Accept (Plain (tcp_listening []))) (tcp_world [])))
      !! 8 = Some s2 ∧
    s1 ≠ s2.
Proof.
  apply (Accept_twice_distinct (Plain (tcp_listening [])) (Plain (tcp_listening []))
           (tcp_world []) 5 (OfTCP {| c_sysfd := 6 |})
           (after (listener_Accept (Plain (tcp_listening []))) (tcp_world []))
           (after (listener_Accept (Plain (tcp_listening []))) (tcp_world []))).
  - vm_compute. reflexivity.
  - apply keeps_refl.
  - vm_compute. reflexivity.
Defined.

(** ** What an [Accept] that fails leaves behind *)

Lemma net_AcceptTCP_error l w c e w' :
  net_AcceptTCP l w = (Returned (c, Some e), w') → file_error e = false.
Proof.
  unfold net_AcceptTCP. destruct l as [lst|]; go_unfold.
  - destruct (sys_accept (l_sysfd lst) w) as [[nfd|e'] w1]; simpl;
      intros [= <- <- <-]; done.
  - intros [= <- <- <-]. done.
Qed.

Lemma net_ListenUDP_error laddr w c e w' :
  net_ListenUDP "udp" laddr w = (Returned (c, Some e), w') → file_error e = false.
Proof.
  intros H. apply net_ListenUDP_inv in H.
  destruct H as [(e' & [= _ ->])|(fd & [=] & _)]. done.
Qed.

(** Once the kernel has handed out the socket, the rest of [Accept] closes
    nothing, however it ends. *)
Lemma rest_keeps network cfd w1 :
  ∀ k : option os_File → option error → Go (Z * option Conn * option error),
    (∀ f e, keeping (k f e)) →
    keeps w1 (('(file, err) ← dup_file network cfd; k file err) w1).2.
Proof.
  intros k Hk. apply (keeping_bind (dup_file network cfd)).
  - apply keeping_dup_file.
  - intros [f e]. apply Hk.
Qed.

Lemma TCPListener_Accept_rest tl w c w1 :
  net_AcceptTCP (TCPListener.Listener tl) w = (Returned (Some c, None), w1) →
  keeps w1 (TCPListener.Accept tl w).2.
Proof.
  intros Ha. unfold TCPListener.Accept.
  unfold mbind at 1, Go_bind at 1. rewrite Ha. simpl.
  apply rest_keeps. intros f e. auto 20 with keeping.
Qed.

Lemma TLSListener_Accept_rest tl w c w1 :
  net_AcceptTCP (TLSListener.Listener tl) w = (Returned (Some c, None), w1) →
  keeps w1 (TLSListener.Accept tl w).2.
Proof.
  intros Ha. unfold TLSListener.Accept.
  unfold mbind at 1, Go_bind at 1. rewrite Ha. simpl.
  apply rest_keeps. intros f e. auto 20 with keeping.
Qed.

Lemma UDPListener_Accept_rest ul w c w1 :
  net_ListenUDP "udp" (UDPListener.Laddr ul) w = (Returned (Some c, None), w1) →
  keeps w1 (UDPListener.Accept ul w).2.
Proof.
  intros Ha. unfold UDPListener.Accept.
  unfold mbind at 1, Go_bind at 1. rewrite Ha. simpl.
  apply rest_keeps. intros f e. auto 20 with keeping.
Qed.

Lemma obtained_kept w w1 cfd sk w' :
  obtained w w1 cfd sk → keeps w1 w' →
  0 ≤ cfd ∧ fdtable w !! cfd = None ∧
  sockets w !! alloc_sock (sockets w) = None ∧
  refers_to w' cfd (alloc_sock (sockets w)).
Proof.
  intros (-> & Ht & Hs) [Hkt Hks].
  split; [apply alloc_fd_nonneg|]. split; [apply alloc_fd_fresh|].
  split; [apply alloc_sock_fresh|].
  split; [apply alloc_fd_nonneg|]. split.
  - eapply lookup_weaken; [|exact Hkt]. rewrite Ht. apply lookup_insert_eq.
  - exists sk. eapply lookup_weaken; [|exact Hks]. rewrite Hs. apply lookup_insert_eq.
Qed.

Lemma listener_Accept_leak (l : listener) w fd conn e w' :
  listener_Accept l w = (Returned (fd, conn, Some e), w') →
  file_error e = true →
  ∃ cfd, 0 ≤ cfd ∧ fdtable w !! cfd = None ∧
         sockets w !! alloc_sock (sockets w) = None ∧
         refers_to w' cfd (alloc_sock (sockets w)).
Proof.
  intros H He. destruct l as [tl|tl|ul]; simpl in H.
  - destruct (net_AcceptTCP (TCPListener.Listener tl) w) as [[[c [e0|]]|p] w1] eqn:Ha.
    + pose proof (net_AcceptTCP_error _ _ _ _ _ Ha) as Hsh.
      unfold TCPListener.Accept in H. go_unfold. rewrite Ha in H. simpl in H.
      injection H as <- <- <- <-. congruence.
    + apply net_AcceptTCP_inv in Ha as Hi.
      destruct Hi as [(? & [=] & _)|(? & ? & ? & ? & _ & [= ->] & _)].
      destruct (accepted_obtained _ _ _ _ Ha) as (sk & _ & Hob).
      pose proof (TCPListener_Accept_rest _ _ _ _ Ha) as Hk. rewrite H in Hk.
      eexists. by eapply obtained_kept.
    + apply net_AcceptTCP_inv in Ha.
      destruct Ha as [(? & [=] & _)|(? & ? & ? & ? & _ & [=] & _)].
  - destruct (net_AcceptTCP (TLSListener.Listener tl) w) as [[[c [e0|]]|p] w1] eqn:Ha.
    + pose proof (net_AcceptTCP_error _ _ _ _ _ Ha) as Hsh.
      unfold TLSListener.Accept in H. go_unfold. rewrite Ha in H. simpl in H.
      injection H as <- <- <- <-. congruence.
    + apply net_AcceptTCP_inv in Ha as Hi.
      destruct Hi as [(? & [=] & _)|(? & ? & ? & ? & _ & [= ->] & _)].
      destruct (accepted_obtained _ _ _ _ Ha) as (sk & _ & Hob).
      pose proof (TLSListener_Accept_rest _ _ _ _ Ha) as Hk. rewrite H in Hk.
      eexists. by eapply obtained_kept.
    + apply net_AcceptTCP_inv in Ha.
      destruct Ha as [(? & [=] & _)|(? & ? & ? & ? & _ & [=] & _)].
  - destruct (net_ListenUDP "udp" (UDPListener.Laddr ul) w) as [[[c [e0|]]|p] w1] eqn:Ha.
    + pose proof (net_ListenUDP_error _ _ _ _ _ Ha) as Hsh.
      unfold UDPListener.Accept in H. go_unfold. rewrite Ha in H. simpl in H.
      injection H as <- <- <- <-. congruence.
    + apply net_ListenUDP_inv in Ha as Hi.
      destruct Hi as [(? & [=])|(? & [= ->] & _)].
      pose proof (ListenUDP_obtained _ _ _ _ _ Ha) as Hob.
      pose proof (UDPListener_Accept_rest _ _ _ _ Ha) as Hk. rewrite H in Hk.
      eexists. by eapply obtained_kept.
    + apply net_ListenUDP_inv in Ha.
      destruct Ha as [(? & [=])|(? & [=] & _)].
Qed.

(** X5.  When [Accept] of any variant returns the error of the descriptor
    extraction or of the stream construction, the connection that the kernel
    has already handed out is not closed: after the call its socket is live
    and its own descriptor, which the caller is not given a stream for, is
    open. *)
Theorem Accept_error_leaves_connection_open (l : listener) w fd conn e w' :
  listener_Accept l w = (Returned (fd, conn, Some e), w') →
  file_error e = true →
  conn = None ∧
  ∃ cfd, 0 ≤ cfd ∧ fdtable w !! cfd = None ∧
         sockets w !! alloc_sock (sockets w) = None ∧
         refers_to w' cfd (alloc_sock (sockets w)).
Proof.
  intros H He. split; [|by eapply listener_Accept_leak].
  destruct (listener_Accept_result l w) as (p & Q & wrap & faulty & R & _ & _).
  rewrite H in R. simpl in R. by inversion R.
Qed.

Lemma Accept_error_leaves_connection_open_witness :
  (None : option Conn) = None ∧
  ∃ cfd, 0 ≤ cfd ∧ fdtable (tls_world [None; Some EMFILE]) !! cfd = None ∧
         sockets (tls_world [None; Some EMFILE])
           !! alloc_sock (sockets (tls_world [None; Some EMFILE])) = None ∧
         refers_to
           (after (listener_Accept (Secured (tls_listening [None; Some EMFILE])))
              (tls_world [None; Some EMFILE]))
           cfd (alloc_sock (sockets (tls_world [None; Some EMFILE]))).
Proof.
  apply (Accept_error_leaves_connection_open
           (Secured (tls_listening [None; Some EMFILE])) (tls_world [None; Some EMFILE])
           0 None (OpError "file" "tcp" (SyscallError "dup" EMFILE))).
  - vm_compute. reflexivity.
  - reflexivity.
Defined.

(** ** Ports that are taken *)

Lemma port_in_use_true_iff p port (socks : gmap nat Socket) :
  port_in_use p port socks = true ↔
  ∃ s sk, socks !! s = Some sk ∧ so_proto sk = p ∧ so_state sk ≠ Unbound ∧
          Port (so_local sk) = port.
Proof.
  unfold port_in_use. rewrite existsb_exists. split.
  - intros ([s sk] & Hin & Hb). simpl in Hb.
    apply list_elem_of_In, elem_of_map_to_list in Hin.
    apply andb_true_iff in Hb. destruct Hb as [Hb H3].
    apply andb_true_iff in Hb. destruct Hb as [H1 H2].
    apply bool_decide_eq_true in H1. apply negb_true_iff, bool_decide_eq_false in H2.
    apply Z.eqb_eq in H3. eauto 10.
  - intros (s & sk & Hl & H1 & H2 & H3). exists (s, sk). split.
    + by apply list_elem_of_In, elem_of_map_to_list.
    + simpl. rewrite bool_decide_true, bool_decide_false by done. simpl.
      by apply Z.eqb_eq.
Qed.

Lemma port_in_use_insert p port (socks : gmap nat Socket) s sk :
  socks !! s = None →
  port_in_use p port socks = true →
  port_in_use p port (<[s := sk]> socks) = true.
Proof.
  intros Hs. rewrite !port_in_use_true_iff.
  intros (s' & sk' & Hl & ?). exists s', sk'. split; [|done].
  rewrite lookup_insert_ne; [done|]. intros ->. congruence.
Qed.

Lemma port_in_use_kept p port w w' :
  keeps w w' → port_in_use p port (sockets w) = true →
  port_in_use p port (sockets w') = true.
Proof.
  intros [_ Hks]. rewrite !port_in_use_true_iff.
  intros (s & sk & Hl & ?). exists s, sk. split; [|done].
  by eapply lookup_weaken.
Qed.

(** A bind of a new socket to a fixed port that is taken fails. *)
Lemma bind_taken_fails p a w fd w1 :
  Port a ≠ 0 →
  port_in_use p (Port a) (sockets w) = true →
  sys_socket p w = (Ok fd, w1) →
  ∃ e, (sys_bind fd a w1).1 = Fail e.
Proof.
  intros Hport Huse Hs.
  apply sys_socket_ok in Hs. destruct Hs as (Hfd & _ & Ht & Hsk & _).
  unfold sys_bind.
  match goal with
  | |- context [syscall ?n ?b ?w] =>
      destruct (syscall_cases n b w) as [(e & rest & _ & ->)|(w0 & -> & Hs0 & Ht0 & _)]
  end; [eauto|].
  assert (Hl : fd_lookup w0 fd = Some (alloc_sock (sockets w))).
  { apply fd_lookup_Some. split; [subst fd; apply alloc_fd_nonneg|].
    rewrite Ht0, Ht. apply lookup_insert_eq. }
  rewrite Hl, Hs0, Hsk, lookup_insert_eq. simpl.
  rewrite port_in_use_insert; [|apply alloc_sock_fresh|done].
  destruct (Port a =? 0) eqn:E; [apply Z.eqb_eq in E; done|]. simpl. eauto.
Qed.

Lemma net_ListenUDP_taken a w :
  Port a ≠ 0 →
  port_in_use UDP (Port a) (sockets w) = true →
  ∃ e, (net_ListenUDP "udp" (Some a) w).1
       = Returned (None, Some (OpError "listen" "udp" e)).
Proof.
  intros Hport Huse. unfold net_ListenUDP. go_unfold.
  destruct (sys_socket UDP w) as [[fd|e] w1] eqn:Hs; simpl; [|eauto].
  destruct (bind_taken_fails _ _ _ _ _ Hport Huse Hs) as [e He].
  destruct (sys_bind fd a w1) as [[u|e'] w2]; simpl in *; [done|].
  destruct (sys_close fd w2) as [r w3]. simpl. eauto.
Qed.

Lemma net_ListenTCP_taken a w :
  Port a ≠ 0 →
  port_in_use TCP (Port a) (sockets w) = true →
  ∃ e, (net_ListenTCP "tcp" (Some a) w).1
       = Returned (None, Some (OpError "listen" "tcp" e)).
Proof.
  intros Hport Huse. unfold net_ListenTCP. go_unfold.
  destruct (sys_socket TCP w) as [[fd|e] w1] eqn:Hs; simpl; [|eauto].
  destruct (bind_taken_fails _ _ _ _ _ Hport Huse Hs) as [e He].
  destruct (sys_bind fd a w1) as [[u|e'] w2]; simpl in *; [done|].
  destruct (sys_close fd w2) as [r w3]. simpl. eauto.
Qed.



Lemma stream_Listen_taken (l : listener) port cfg a w :
  resolver w "tcp" port = Some a → Port a ≠ 0 →
  port_in_use TCP (Port a) (sockets w) = true →
  match l with
  | Plain _ => True
  | Secured _ => ∃ c, cfg = Some c ∧ Certificates c ≠ []
  | Datagram _ => False
  end →
  ∃ e, (listener_Listen l port cfg w).1
       = Panicked (PanicError (OpError "listen" "tcp" e)).
Proof.
  intros Hres Hport Huse Hl.
  destruct (net_ListenTCP_taken a w Hport Huse) as [e He]. exists e.
  destruct l as [tl|tl|ul]; [| |done]; simpl; unfold fmap, Go_fmap, Listen; simpl.
  - rewrite TCPListener_Listen_eq, Hres.
    destruct (net_ListenTCP "tcp" (Some a) w) as [o w1]. simpl in He. by subst o.
  - destruct Hl as (c & -> & Hc). rewrite TLSListener_Listen_eq, Hres by done.
    destruct (net_ListenTCP "tcp" (Some a) w) as [o w1]. simpl in He. by subst o.
Qed.



(** ** [Listen] and [Close] together *)

(** After a [Listen] that returns on a stream variant the listener holds a
    descriptor of the socket that was made. *)
Lemma stream_Listen_returns (l : listener) port cfg w l1 w1 :
  listener_Listen l port cfg w = (Returned l1, w1) →
  stream_variant l = true →
  stream_variant l1 = true ∧
  ∃ fd, listener_sysfd l1 = Some fd ∧
        listening_at w w1 (Some {| l_sysfd := fd |})
          (default zero_addr (resolver w "tcp" port)).
Proof.
  intros H Hl. pose proof (Listen_returns_shape _ _ _ _ _ _ H) as Hs.
  destruct l as [tl|tl|ul]; [| |done]; simpl in H;
    apply fmap_returns in H; destruct H as (t & _ & ->); simpl in *.
  - split; [done|]. destruct Hs as (lst & sk & Hlst & ?).
    exists (l_sysfd lst). rewrite Hlst. split; [done|].
    exists lst, sk. by destruct lst.
  - split; [done|]. destruct Hs as [(lst & sk & Hlst & ?) _].
    exists (l_sysfd lst). rewrite Hlst. split; [done|].
    exists lst, sk. by destruct lst.
Qed.

Lemma listening_at_port_in_use w w1 l a :
  listening_at w w1 l a → Port a ≠ 0 →
  port_in_use TCP (Port a) (sockets w1) = true.
Proof.
  intros (lst & sk & _ & _ & _ & Hl & Hp & Hst & _ & Hport & _) Ha.
  apply port_in_use_true_iff. exists (alloc_sock (sockets w)), sk.
  rewrite Hst. split; [done|]. split; [done|]. split; [done|]. by apply Hport.
Qed.

(** X8.  After a [Listen] that returned on the Plain or the Secured variant
    for a fixed port, a second [Listen] for that port on either of these
    variants panics with the error of [net.ListenTCP], for as long as the
    first socket is open: the first [Listen] is never undone by the
    second. *)
Theorem Listen_twice_panics (l l2 : listener) port cfg cfg2 a w l1 w1 wm :
  listener_Listen l port cfg w = (Returned l1, w1) →
  stream_variant l = true →
  resolver w "tcp" port = Some a → Port a ≠ 0 →
  keeps w1 wm → resolver wm "tcp" port = Some a →
  match l2 with
  | Plain _ => True
  | Secured _ => ∃ c, cfg2 = Some c ∧ Certificates c ≠ []
  | Datagram _ => False
  end →
  ∃ e, (listener_Listen l2 port cfg2 wm).1
       = Panicked (PanicError (OpError "listen" "tcp" e)).
Proof.
  intros H Hl Hres Hport Hk Hres2 Hl2.
  destruct (stream_Listen_returns _ _ _ _ _ _ H Hl) as (_ & fd & _ & Hat).
  rewrite Hres in Hat. simpl in Hat.
  apply (stream_Listen_taken l2 port cfg2 a wm); try done.
  apply (port_in_use_kept _ _ w1); [done|].
  by eapply listening_at_port_in_use.
Qed.

Lemma Listen_twice_panics_witness :
  ∃ e, (listener_Listen (Plain tcp0) ":6666" None
          (after (listener_Listen (Secured tls0) ":6666" (Some config1)) (boot []))).1
       = Panicked (PanicError (OpError "listen" "tcp" e)).
Proof.
  apply (Listen_twice_panics (Secured tls0) (Plain tcp0) ":6666" (Some config1) None
           {| IP := []; Port := 6666 |} (boot [])
           (Secured (value tls0 (Listen tls0 ":6666" (Some config1)) (boot [])))
           (after (listener_Listen (Secured tls0) ":6666" (Some config1)) (boot []))).
  - vm_compute. reflexivity.
  - reflexivity.
  - reflexivity.
  - done.
  - apply keeps_refl.
  - reflexivity.
  - done.
Defined.

Lemma sys_close_runs fd s w :
  script w = [] → fd_lookup w fd = Some s →
  ∃ w', sys_close fd w = (Ok (), w') ∧
        fdtable w' = delete fd (fdtable w) ∧
        sockets w' =
          if existsb (λ kv, bool_decide (kv.2 = s)) (map_to_list (delete fd (fdtable w)))
          then sockets w else delete s (sockets w).
Proof.
  intros Hs Hl. unfold sys_close, syscall. rewrite Hs, Hl. eauto.
Qed.

Lemma no_dangling_unnamed w :
  no_dangling w →
  existsb (λ kv : Z * nat, bool_decide (kv.2 = alloc_sock (sockets w)))
    (map_to_list (fdtable w)) = false.
Proof.
  intros Hw. apply not_true_is_false. intros E.
  apply existsb_exists in E. destruct E as ([fd s] & Hin & Hb). simpl in Hb.
  apply bool_decide_eq_true in Hb. subst s.
  apply list_elem_of_In, elem_of_map_to_list, Hw in Hin.
  rewrite alloc_sock_fresh in Hin. by destruct Hin.
Qed.

(** The tables after a [Listen] that returned on a stream variant. *)
Lemma stream_Listen_tables (l : listener) port cfg w l1 w1 :
  listener_Listen l port cfg w = (Returned l1, w1) →
  stream_variant l = true →
  ∃ fd sk, listener_sysfd l1 = Some fd ∧
    fdtable w1 = <[fd := alloc_sock (sockets w)]> (fdtable w) ∧
    sockets w1 = <[alloc_sock (sockets w) := sk]> (sockets w).
Proof.
  intros H Hl.
  destruct l as [tl|tl|ul]; [| |done]; simpl in H;
    apply fmap_returns in H; destruct H as (t & H & ->); simpl.
  - apply TCPListener_Listen_returns, net_ListenTCP_inv in H.
    destruct H as [(e & [=])|(fd & [= Hfd] & _ & _ & Ht & Hs)].
    rewrite Hfd. simpl. eauto.
  - apply TLSListener_Listen_returns in H. destruct H as (_ & _ & H).
    apply net_ListenTCP_inv in H.
    destruct H as [(e & [=])|(fd & [= Hfd] & _ & _ & Ht & Hs)].
    rewrite Hfd. simpl. eauto.
Qed.


Lemma no_dangling_boot : no_dangling (boot []).
Proof.
  intros fd s H. simpl in H.
  assert (s = 0%nat) as ->.
  { repeat (apply lookup_insert_Some in H; destruct H as [[_ H]|[_ H]]; [done|]).
    apply lookup_singleton_Some in H. by destruct H. }
  by eexists.
Qed.


(** ** A listener that is not listening *)

Lemma closed_accept_fails fd w :
  fd_lookup w fd = None → ∃ e, (sys_accept fd w).1 = Fail e.
Proof.
  intros Hl. unfold sys_accept.
  match goal with
  | |- context [syscall ?n ?b ?w] =>
      destruct (syscall_cases n b w) as [(e & rest & _ & ->)|(w0 & -> & _ & Ht0 & _)]
  end; [eauto|].
  unfold fd_lookup in *. rewrite Ht0, Hl. eauto.
Qed.

Lemma closed_close_fails fd w :
  fd_lookup w fd = None → ∃ e, (sys_close fd w).1 = Fail e.
Proof.
  intros Hl. unfold sys_close.
  match goal with
  | |- context [syscall ?n ?b ?w] =>
      destruct (syscall_cases n b w) as [(e & rest & _ & ->)|(w0 & -> & _ & Ht0 & _)]
  end; [eauto|].
  unfold fd_lookup in *. rewrite Ht0, Hl. eauto.
Qed.

Lemma TCPListener_Close_nil l w w1 :
  net_TCPListener_Close l w = (Returned None, w1) →
  ∃ lst, l = Some lst ∧ fd_lookup w1 (l_sysfd lst) = None.
Proof.
  unfold net_TCPListener_Close. destruct l as [lst|]; go_unfold; [|done].
  destruct (sys_close (l_sysfd lst) w) as [[u|e] w2] eqn:Hc; simpl; [|done].
  intros [= <-]. exists lst. split; [done|].
  apply sys_close_cases in Hc.
  destruct Hc as [(e & [=] & _)|(s & _ & _ & _ & Ht & _)].
  unfold fd_lookup. rewrite Ht, lookup_delete_eq. by destruct (_ <? _).
Qed.

Lemma stale_listener lst w :
  fd_lookup w (l_sysfd lst) = None →
  (∃ e, (net_AcceptTCP (Some lst) w).1 = Returned (None, Some e)) ∧
  (∃ e, (net_TCPListener_Close (Some lst) w).1 = Returned (Some e)).
Proof.
  intros Hl. split.
  - destruct (closed_accept_fails _ _ Hl) as [e He].
    unfold net_AcceptTCP. go_unfold.
    destruct (sys_accept (l_sysfd lst) w) as [[nfd|e'] w1]; simpl in *; [done|eauto].
  - destruct (closed_close_fails _ _ Hl) as [e He].
    unfold net_TCPListener_Close. go_unfold.
    destruct (sys_close (l_sysfd lst) w) as [[u|e'] w1]; simpl in *; [done|eauto].
Qed.

(** X10.  After a [Close] that returned a nil error on the Plain or the
    Secured variant, the next [Accept] on the listener returns an error with
    the zero descriptor and a nil stream, and the next [Close] returns an
    error too: [Close] is not idempotent, and neither call panics. *)
Theorem Close_then_Accept_or_Close_fails (l : listener) w w1 :
  stream_variant l = true →
  listener_Close l w = (Returned None, w1) →
  (∃ e, (listener_Accept l w1).1 = Returned (0, None, Some e)) ∧
  (∃ e, (listener_Close l w1).1 = Returned (Some e)).
Proof.
  intros Hl H. destruct l as [tl|tl|ul]; [| |done]; simpl in H |- *.
  - unfold TCPListener.Close in *.
    destruct (TCPListener_Close_nil _ _ _ H) as (lst & Hlst & Hgone).
    destruct (stale_listener lst w1 Hgone) as [[e He] Hc]. rewrite Hlst.
    split; [|done]. exists e. unfold TCPListener.Accept.
    unfold mbind at 1, Go_bind at 1. rewrite Hlst.
    destruct (net_AcceptTCP (Some lst) w1) as [o w2]. simpl in He. by subst o.
  - unfold TLSListener.Close in *.
    destruct (TCPListener_Close_nil _ _ _ H) as (lst & Hlst & Hgone).
    destruct (stale_listener lst w1 Hgone) as [[e He] Hc]. rewrite Hlst.
    split; [|done]. exists e. unfold TLSListener.Accept.
    unfold mbind at 1, Go_bind at 1. rewrite Hlst.
    destruct (net_AcceptTCP (Some lst) w1) as [o w2]. simpl in He. by subst o.
Qed.

Lemma Close_then_Accept_or_Close_fails_witness :
  (∃ e, (listener_Accept (Plain (tcp_listening []))
           (after (listener_Close (Plain (tcp_listening []))) (tcp_world []))).1
        = Returned (0, None, Some e)) ∧
  (∃ e, (listener_Close (Plain (tcp_listening []))
           (after (listener_Close (Plain (tcp_listening []))) (tcp_world []))).1
        = Returned (Some e)).
Proof.
  apply (Close_then_Accept_or_Close_fails (Plain (tcp_listening [])) (tcp_world [])).
  - reflexivity.
  - vm_compute. reflexivity.
Defined.

(** X11.  [Accept] on the Plain or the Secured variant succeeds only on a
    listener whose descriptor names a live socket in the listening state;
    in particular it never succeeds before [Listen] has filled the
    listener. *)
Theorem Accept_success_needs_listening (l : listener) w fd conn w' :
  stream_variant l = true →
  listener_Accept l w = (Returned (fd, conn, None), w') →
  listening_now w l.
Proof.
  intros Hl H.
  assert (Ha : ∃ lo c w1, listener_sysfd l = l_sysfd <$> lo ∧
                          net_AcceptTCP lo w = (Returned (Some c, None), w1)).
  { destruct l as [tl|tl|ul]; [| |done]; simpl in H.
    - apply TCPListener_Accept_steps in H. destruct H as (c & w1 & _ & _ & Ha & _).
      by exists (TCPListener.Listener tl), c, w1.
    - apply TLSListener_Accept_steps in H. destruct H as (c & w1 & _ & _ & _ & Ha & _).
      by exists (TLSListener.Listener tl), c, w1. }
  destruct Ha as (lo & c & w1 & Hfd & Ha).
  apply net_AcceptTCP_inv in Ha.
  destruct Ha as [(e & [=] & _)|(lst & s & sk & nfd & -> & _ & Hl1 & Hsk & Hst & _)].
  exists (l_sysfd lst), s, sk. by rewrite Hfd.
Qed.

Lemma Accept_success_needs_listening_witness :
  listening_now (tls_world []) (Secured (tls_listening [])).
Proof.
  apply (Accept_success_needs_listening (Secured (tls_listening [])) (tls_world [])
           5 (Some (OfTLS (Some (OfTCP {| c_sysfd := 6 |})) (Some config1) false))
           (after (listener_Accept (Secured (tls_listening []))) (tls_world []))).
  - reflexivity.
  - vm_compute. reflexivity.
Defined.

(** ** The Secured listener and its configuration *)

(** X12.  Every stream that [Accept] hands out on a Secured listener after a
    [Listen] that returned carries exactly the configuration that was given
    to [Listen], with the handshake not done; and that configuration holds
    at least one certificate. *)
Theorem Secured_stream_carries_Listen_config
    (tl : TLSListener.t) port cfg w l1 w1 wm fd conn w2 :
  listener_Listen (Secured tl) port cfg w = (Returned l1, w1) →
  listener_Accept l1 wm = (Returned (fd, conn, None), w2) →
  (∃ c, cfg = Some c ∧ Certificates c ≠ []) ∧
  ∃ nfd, conn = Some (OfTLS (Some (OfTCP {| c_sysfd := nfd |})) cfg false).
Proof.
  intros H Ha. simpl in H. apply fmap_returns in H. destruct H as (t & H & ->).
  apply TLSListener_Listen_returns in H. destruct H as (Hc & <- & _).
  split; [done|]. simpl in Ha.
  pose proof (TLSListener_Accept_result t wm) as R. rewrite Ha in R. simpl in R.
  inversion R; subst. eauto.
Qed.

Lemma Secured_stream_carries_Listen_config_witness :
  (∃ c, Some config1 = Some c ∧ Certificates c ≠ []) ∧
  ∃ nfd, Some (OfTLS (Some (OfTCP {| c_sysfd := 6 |})) (Some config1) false)
         = Some (OfTLS (Some (OfTCP {| c_sysfd := nfd |})) (Some config1) false).
Proof.
  apply (Secured_stream_carries_Listen_config tls0 ":6666" (Some config1)
           (boot [None; None; None]) (Secured (tls_listening [])) (tls_world [])
           (tls_world []) 5
           (Some (OfTLS (Some (OfTCP {| c_sysfd := 6 |})) (Some config1) false))
           (after (listener_Accept (Secured (tls_listening []))) (tls_world []))).
  - vm_compute. reflexivity.
  - vm_compute. reflexivity.
Defined.

(** X13.  [Listen] on the Secured variant with a nil configuration panics
    with a nil pointer dereference, not with the configuration error, and
    before anything is bound: the world is left as it was. *)
Theorem Secured_Listen_nil_config (tl : TLSListener.t) port w :
  listener_Listen (Secured tl) port None w = (Panicked NilDereference, w).
Proof.
  simpl. unfold TLSListener.Listen, net_ResolveTCPAddr. go_unfold.
  by destruct (resolver w "tcp" port).
Qed.

(** ** No operation touches a stream *)

Lemma quiet_ListenTCP network laddr : quiet (net_ListenTCP network laddr).
Proof. unfold net_ListenTCP. auto 30 with quiet. Qed.

Lemma quiet_ListenUDP network laddr : quiet (net_ListenUDP network laddr).
Proof. unfold net_ListenUDP. auto 30 with quiet. Qed.

Lemma quiet_TCPListener_Close l : quiet (net_TCPListener_Close l).
Proof. unfold net_TCPListener_Close. auto 30 with quiet. Qed.

Lemma quiet_fmap {A B} (f : A → B) (c : Go A) : quiet c → quiet (f <$> c).
Proof.
  intros Hc w. specialize (Hc w). go_unfold. by destruct (c w) as [[a|p] w1].
Qed.


(** ** A listener that is bound again *)

(** X15.  When [Listen] returns on a Plain or Secured listener that already
    held a listening socket, that socket is not closed: its descriptor still
    names it and the socket is unchanged, while the listener now holds a
    different descriptor, so the package can no longer reach the old
    socket. *)
Theorem Listen_again_leaves_old_socket (l : listener) port cfg w l1 w1 old s sk :
  stream_variant l = true →
  listener_Listen l port cfg w = (Returned l1, w1) →
  listener_sysfd l = Some old →
  fdtable w !! old = Some s → sockets w !! s = Some sk →
  fdtable w1 !! old = Some s ∧ sockets w1 !! s = Some sk ∧
  ∃ new, listener_sysfd l1 = Some new ∧ new ≠ old.
Proof.
  intros Hl H Hold Hfd Hsk.
  pose proof (Listen_keeps_tables l port cfg w) as [Hkt Hks].
  unfold after in Hkt, Hks. rewrite H in Hkt, Hks. simpl in Hkt, Hks.
  pose proof (lookup_weaken _ _ _ _ Hfd Hkt) as Hfd1.
  pose proof (lookup_weaken _ _ _ _ Hsk Hks) as Hsk1.
  do 2 (split; [done|]).
  destruct (stream_Listen_tables _ _ _ _ _ _ H Hl) as (new & sk' & Hnew & Ht & _).
  exists new. split; [done|]. intros ->.
  rewrite Ht, lookup_insert_eq in Hfd1. injection Hfd1 as <-.
  rewrite alloc_sock_fresh in Hsk. done.
Qed.

Lemma Listen_again_leaves_old_socket_witness :
  fdtable (after (listener_Listen (Plain (tcp_listening [])) ":0" None) (tcp_world []))
    !! 3 = Some 1%nat ∧
  sockets (after (listener_Listen (Plain (tcp_listening [])) ":0" None) (tcp_world []))
    !! 1%nat = Some {| so_proto := TCP; so_state := Listening;
                       so_local := {| IP := []; Port := 6666 |} |} ∧
  ∃ new, listener_sysfd
           (Plain (value tcp0 (Listen (tcp_listening []) ":0" None) (tcp_world [])))
         = Some new ∧ new ≠ 3.
Proof.
  apply (Listen_again_leaves_old_socket (Plain (tcp_listening [])) ":0" None
           (tcp_world [])).
  - reflexivity.
  - vm_compute. reflexivity.
  - vm_compute. reflexivity.
  - vm_compute. reflexivity.
  - vm_compute. reflexivity.
Defined.
